(** * Password generator: the generation and strength logic of the widget

    A shallow embedding of the script of the password-generator page:
    the constants [CONFIG], [CHARACTERS] and [STRENGTH_LABELS], the
    functions [generateSecurePassword], [buildCharacterPool] and
    [getPasswordStrength], and the handler [generatePassword] with the
    part of the page it reads and writes.

    Conventions.
    - A JavaScript number that reaches this code is the result of
      [parseInt(_, 10)], an array index or a typed-array element: an integer
      or [NaN].  It is modelled by [number].
    - Strings are [string]; the alphabets are ASCII, so one [ascii] is one
      UTF-16 code unit.  Indexing a string out of range gives [undefined],
      modelled by [None].
    - A [throw] is the constructor [Throw] of [completion].
    - [crypto.getRandomValues] and the engine are the environment.  The
      values the random source delivers are a stream [entropy : nat -> Z];
      the call refuses an array of more than 65536 bytes with a
      [QuotaExceededError].  The engine's largest typed-array length is
      [limit : N]; a longer array is refused with a [RangeError].  Both are
      section variables of [Generator].  Running out of memory below these
      limits is not modelled. *)

From Stdlib Require Import ZArith Ascii String List Lia Bool.
From stdpp Require Import base list strings gmap.

Local Open Scope Z_scope.

(** ** JavaScript numbers, as far as the script uses them *)

Inductive number : Type :=
| Int (z : Z)
| NaN.

(** [a < b], [a <= b], [a >= b]: every comparison with [NaN] is false. *)
Definition js_lt (a b : number) : bool :=
  match a, b with
  | Int x, Int y => x <? y
  | _, _ => false
  end.

Definition js_le (a b : number) : bool :=
  match a, b with
  | Int x, Int y => x <=? y
  | _, _ => false
  end.

Definition js_ge (a b : number) : bool :=
  match a, b with
  | Int x, Int y => x >=? y
  | _, _ => false
  end.

(** [a === b] on numbers: [NaN] is not equal to itself. *)
Definition js_strict_eq (a b : number) : bool :=
  match a, b with
  | Int x, Int y => x =? y
  | _, _ => false
  end.

(** [isNaN(a)]. *)
Definition isNaN (a : number) : bool :=
  match a with
  | NaN => true
  | Int _ => false
  end.

(** [a % b]: the remainder has the sign of the dividend; a zero divisor or a
    [NaN] operand gives [NaN]. *)
Definition js_rem (a b : number) : number :=
  match a, b with
  | Int x, Int y => if y =? 0 then NaN else Int (Z.rem x y)
  | _, _ => NaN
  end.

(** ** Exceptions *)

(** [Error] is what the script throws itself, with its message.
    [RangeError] and [QuotaExceededError] are thrown by the engine and by
    the browser; their messages are the engine's own and are not kept. *)
Inductive exception : Type :=
| Error (message : string)
| RangeError
| QuotaExceededError.

Inductive completion (A : Type) : Type :=
| Return (a : A)
| Throw (e : exception).

Arguments Return {A} a.
Arguments Throw {A} e.

Definition bind {A B : Type} (c : completion A) (k : A -> completion B)
  : completion B :=
  match c with
  | Return a => k a
  | Throw e => Throw e
  end.

Notation "'let*' x ':=' c 'in' k" := (bind c (fun x => k))
  (at level 10, x name, c at level 100, k at level 200).

(** [try { body } catch (error) { handler }] *)
Definition try_catch {A : Type} (body : completion A)
    (handler : exception -> A) : A :=
  match body with
  | Return a => a
  | Throw e => handler e
  end.

(** ** Configuration and constants *)

Record range : Type := { min : Z; max : Z }.

Module CONFIG.
Module PASSWORD_LENGTH.
Definition MIN : Z := 0.
Definition MAX : Z := 16.
Definition DEFAULT : Z := 0.
End PASSWORD_LENGTH.
Module STRENGTH_THRESHOLDS.
Definition TOO_WEAK : range := {| min := 1; max := 4 |}.
Definition WEAK : range := {| min := 5; max := 8 |}.
Definition MEDIUM : range := {| min := 9; max := 12 |}.
Definition STRONG : range := {| min := 13; max := 16 |}.
End STRENGTH_THRESHOLDS.
End CONFIG.

Module CHARACTERS.
Definition uppercase : string := "ABCDEFGHIJKLMNOPQRSTUVWXYZ".
Definition lowercase : string := "abcdefghijklmnopqrstuvwxyz".
Definition numbers : string := "0123456789".
Definition symbols : string := "!@#$%^&*()_+-=[]{}|;:,.<>?".
End CHARACTERS.

Module STRENGTH_LABELS.
Definition TOO_WEAK : string := "too weak!".
Definition WEAK : string := "weak".
Definition MEDIUM : string := "medium".
Definition STRONG : string := "strong".
End STRENGTH_LABELS.

(** ** [getPasswordStrength]: a label, or [null] ([None]) *)

Definition getPasswordStrength (length : number) : option string :=
  if js_strict_eq length (Int 0) then None
  else
    let TOO_WEAK := CONFIG.STRENGTH_THRESHOLDS.TOO_WEAK in
    let WEAK := CONFIG.STRENGTH_THRESHOLDS.WEAK in
    let MEDIUM := CONFIG.STRENGTH_THRESHOLDS.MEDIUM in
    let STRONG := CONFIG.STRENGTH_THRESHOLDS.STRONG in
    if js_ge length (Int (min TOO_WEAK)) && js_le length (Int (max TOO_WEAK))
    then Some STRENGTH_LABELS.TOO_WEAK
    else if js_ge length (Int (min WEAK)) && js_le length (Int (max WEAK))
    then Some STRENGTH_LABELS.WEAK
    else if js_ge length (Int (min MEDIUM)) && js_le length (Int (max MEDIUM))
    then Some STRENGTH_LABELS.MEDIUM
    else if js_ge length (Int (min STRONG)) && js_le length (Int (max STRONG))
    then Some STRENGTH_LABELS.STRONG
    else None.

(** ** Typed arrays, strings and arrays, as far as the script uses them *)

(** [new Uint32Array(length)]: the length goes through [ToIndex], which
    turns [NaN] into 0 and throws a [RangeError] on a negative integer; a
    length above [limit], the largest typed-array length of the engine, is
    refused with a [RangeError] as well; the elements start at 0. *)
Definition Uint32Array (limit : N) (length : number) : completion (list Z) :=
  match length with
  | NaN => Return []
  | Int n =>
      if (n <? 0) || (Z.of_N limit <? n) then Throw RangeError
      else Return (replicate (Z.to_nat n) 0)
  end.

(** The bytes of a [Uint32Array]: 4 for each element. *)
Definition byteLength (array : list Z) : Z :=
  4 * Z.of_nat (Datatypes.length array).

(** [array[i]] used as a number: a missing element is [undefined], which
    arithmetic turns into [NaN]. *)
Definition element (array : list Z) (i : nat) : number :=
  match array !! i with
  | Some v => Int v
  | None => NaN
  end.

(** [s[k]]: the character at position [k], or [undefined] ([None]) when [k]
    is not the index of a character. *)
Definition char_at (s : string) (k : number) : option ascii :=
  match k with
  | Int z => if z <? 0 then None else String.get (Z.to_nat z) s
  | NaN => None
  end.

(** [array.join("")] on an array of characters: [undefined] elements
    contribute nothing. *)
Fixpoint join (array : list (option ascii)) : string :=
  match array with
  | [] => EmptyString
  | Some c :: rest => String c (join rest)
  | None :: rest => join rest
  end.

(** [!s] on a string: only the empty string is falsy. *)
Definition not_string (s : string) : bool :=
  match s with
  | EmptyString => true
  | String _ _ => false
  end.

(** The values [i] a loop [for (let i = 0; i < length; i++)] runs its body
    on, in order. *)
Definition loop_range (length : number) : list nat :=
  match length with
  | Int n => seq 0 (Z.to_nat n)
  | NaN => []
  end.

(** ** [generateSecurePassword] *)

Section Generator.

  (** The [i]-th value delivered by the secure random source. *)
Variable entropy : nat -> Z.

  (** The largest typed-array length of the engine. *)
Variable limit : N.

  (** Every element is overwritten with a random value, stored as an
      unsigned 32-bit integer. *)
Definition random_fill (array : list Z) : list Z :=
    imap (fun i _ => Z.modulo (entropy i) (2 ^ 32)) array.

  (** [crypto.getRandomValues(array)]: an array of more than 65536 bytes is
      refused with a [QuotaExceededError]; otherwise the array is filled. *)
Definition getRandomValues (array : list Z) : completion (list Z) :=
    if 65536 <? byteLength array then Throw QuotaExceededError
    else Return (random_fill array).

  (** [randomValues[i] % poolLength] *)
Definition randomIndex (randomValues : list Z) (poolLength : Z) (i : nat)
    : number :=
    js_rem (element randomValues i) (Int poolLength).

  (** One turn of the loop: [password.push(characterPool[randomIndex])]. *)
Definition push_random (randomValues : list Z) (characterPool : string)
      (poolLength : Z) (password : list (option ascii)) (i : nat)
    : list (option ascii) :=
    password ++ [char_at characterPool (randomIndex randomValues poolLength i)].

Definition generateSecurePassword (length : number) (characterPool : string)
    : completion string :=
    if not_string characterPool || (String.length characterPool =? 0)%nat
    then Throw (Error "Character pool cannot be empty")
    else
      let password := [] in
      let poolLength := Z.of_nat (String.length characterPool) in
      let* randomValues := Uint32Array limit length in
      let* randomValues := getRandomValues randomValues in
      let password :=
        fold_left (push_random randomValues characterPool poolLength)
                  (loop_range length) password in
      Return (join password).

End Generator.

(** ** The page: the elements and the state the handler reads and writes

    Only what [generatePassword] and the functions it calls touch is kept.
    [classList] is a set of class names.  The slider's gradient (a style
    computed in floating point), the timer of the copied message and the
    console are left out. *)

Module CSS_CLASSES.
Definition hidden : string := "hidden".
Definition emptyEvalBox : list string := ["border-grey-200"; "bg-grey-850"].
Definition fullEvalBoxTooWeak : list string := ["border-red-500"; "bg-red-500"].
Definition fullEvalBoxWeak : list string :=
  ["border-orange-400"; "bg-orange-400"].
Definition fullEvalBoxMedium : list string :=
  ["border-yellow-300"; "bg-yellow-300"].
Definition fullEvalBoxStrong : list string :=
  ["border-green-strong"; "bg-green-strong"].
End CSS_CLASSES.

(** [classList.add(...names)] and [classList.remove(...names)] *)
Definition classList_add (names : list string) (classList : gset string)
  : gset string :=
  classList ∪ list_to_set names.

Definition classList_remove (names : list string) (classList : gset string)
  : gset string :=
  classList ∖ list_to_set names.

(** The four checkboxes, by their [checked] property. *)
Record checkboxes : Type := {
  uppercase : bool;
  lowercase : bool;
  numbers : bool;
  symbols : bool
}.

(** The four evaluation boxes, by name. *)
Inductive box : Type := box1 | box2 | box3 | box4.

Record page : Type := {
  passwordNum_textContent : string;
  passwordNum_classList : gset string;
  optionError_classList : gset string;
  copiedText_classList : gset string;
  lengthOutput_textContent : number;
  lengthInput_value : number;
  checked : checkboxes;
  strengthEvaluationText : string;
  evaluationBoxes : box -> gset string;
  generateButton_aria_pressed : bool;
  currentPassword : string
}.

(** ** [buildCharacterPool] *)

Definition buildCharacterPool (c : checkboxes) : string :=
  let pool := EmptyString in
  let pool := if uppercase c then pool +:+ CHARACTERS.uppercase else pool in
  let pool := if lowercase c then pool +:+ CHARACTERS.lowercase else pool in
  let pool := if numbers c then pool +:+ CHARACTERS.numbers else pool in
  let pool := if symbols c then pool +:+ CHARACTERS.symbols else pool in
  pool.

(** ** Strength display *)

#[global] Instance box_eq_dec : EqDecision box.
Proof. solve_decision. Defined.

(** [switch (strength)] compares with [===]; on strings that is equality of
    the characters. *)
Definition getActiveBoxes (strength : string) : list box :=
  if String.eqb strength STRENGTH_LABELS.TOO_WEAK then [box1]
  else if String.eqb strength STRENGTH_LABELS.WEAK then [box1; box2]
  else if String.eqb strength STRENGTH_LABELS.MEDIUM then [box1; box2; box3]
  else if String.eqb strength STRENGTH_LABELS.STRONG
  then [box1; box2; box3; box4]
  else [].

Definition getStrengthClasses (strength : string) : list string :=
  if String.eqb strength STRENGTH_LABELS.TOO_WEAK
  then CSS_CLASSES.fullEvalBoxTooWeak
  else if String.eqb strength STRENGTH_LABELS.WEAK
  then CSS_CLASSES.fullEvalBoxWeak
  else if String.eqb strength STRENGTH_LABELS.MEDIUM
  then CSS_CLASSES.fullEvalBoxMedium
  else if String.eqb strength STRENGTH_LABELS.STRONG
  then CSS_CLASSES.fullEvalBoxStrong
  else [].

(** Field updates of [page]. *)
Definition set_passwordNum_textContent (v : string) (p : page) : page :=
  {| passwordNum_textContent := v;
     passwordNum_classList := passwordNum_classList p;
     optionError_classList := optionError_classList p;
     copiedText_classList := copiedText_classList p;
     lengthOutput_textContent := lengthOutput_textContent p;
     lengthInput_value := lengthInput_value p;
     checked := checked p;
     strengthEvaluationText := strengthEvaluationText p;
     evaluationBoxes := evaluationBoxes p;
     generateButton_aria_pressed := generateButton_aria_pressed p;
     currentPassword := currentPassword p |}.

Definition set_passwordNum_classList (v : gset string) (p : page) : page :=
  {| passwordNum_textContent := passwordNum_textContent p;
     passwordNum_classList := v;
     optionError_classList := optionError_classList p;
     copiedText_classList := copiedText_classList p;
     lengthOutput_textContent := lengthOutput_textContent p;
     lengthInput_value := lengthInput_value p;
     checked := checked p;
     strengthEvaluationText := strengthEvaluationText p;
     evaluationBoxes := evaluationBoxes p;
     generateButton_aria_pressed := generateButton_aria_pressed p;
     currentPassword := currentPassword p |}.

Definition set_optionError_classList (v : gset string) (p : page) : page :=
  {| passwordNum_textContent := passwordNum_textContent p;
     passwordNum_classList := passwordNum_classList p;
     optionError_classList := v;
     copiedText_classList := copiedText_classList p;
     lengthOutput_textContent := lengthOutput_textContent p;
     lengthInput_value := lengthInput_value p;
     checked := checked p;
     strengthEvaluationText := strengthEvaluationText p;
     evaluationBoxes := evaluationBoxes p;
     generateButton_aria_pressed := generateButton_aria_pressed p;
     currentPassword := currentPassword p |}.

Definition set_copiedText_classList (v : gset string) (p : page) : page :=
  {| passwordNum_textContent := passwordNum_textContent p;
     passwordNum_classList := passwordNum_classList p;
     optionError_classList := optionError_classList p;
     copiedText_classList := v;
     lengthOutput_textContent := lengthOutput_textContent p;
     lengthInput_value := lengthInput_value p;
     checked := checked p;
     strengthEvaluationText := strengthEvaluationText p;
     evaluationBoxes := evaluationBoxes p;
     generateButton_aria_pressed := generateButton_aria_pressed p;
     currentPassword := currentPassword p |}.

Definition set_lengthOutput_textContent (v : number) (p : page) : page :=
  {| passwordNum_textContent := passwordNum_textContent p;
     passwordNum_classList := passwordNum_classList p;
     optionError_classList := optionError_classList p;
     copiedText_classList := copiedText_classList p;
     lengthOutput_textContent := v;
     lengthInput_value := lengthInput_value p;
     checked := checked p;
     strengthEvaluationText := strengthEvaluationText p;
     evaluationBoxes := evaluationBoxes p;
     generateButton_aria_pressed := generateButton_aria_pressed p;
     currentPassword := currentPassword p |}.

Definition set_lengthInput_value (v : number) (p : page) : page :=
  {| passwordNum_textContent := passwordNum_textContent p;
     passwordNum_classList := passwordNum_classList p;
     optionError_classList := optionError_classList p;
     copiedText_classList := copiedText_classList p;
     lengthOutput_textContent := lengthOutput_textContent p;
     lengthInput_value := v;
     checked := checked p;
     strengthEvaluationText := strengthEvaluationText p;
     evaluationBoxes := evaluationBoxes p;
     generateButton_aria_pressed := generateButton_aria_pressed p;
     currentPassword := currentPassword p |}.

Definition set_checked (v : checkboxes) (p : page) : page :=
  {| passwordNum_textContent := passwordNum_textContent p;
     passwordNum_classList := passwordNum_classList p;
     optionError_classList := optionError_classList p;
     copiedText_classList := copiedText_classList p;
     lengthOutput_textContent := lengthOutput_textContent p;
     lengthInput_value := lengthInput_value p;
     checked := v;
     strengthEvaluationText := strengthEvaluationText p;
     evaluationBoxes := evaluationBoxes p;
     generateButton_aria_pressed := generateButton_aria_pressed p;
     currentPassword := currentPassword p |}.

Definition set_strengthEvaluationText (v : string) (p : page) : page :=
  {| passwordNum_textContent := passwordNum_textContent p;
     passwordNum_classList := passwordNum_classList p;
     optionError_classList := optionError_classList p;
     copiedText_classList := copiedText_classList p;
     lengthOutput_textContent := lengthOutput_textContent p;
     lengthInput_value := lengthInput_value p;
     checked := checked p;
     strengthEvaluationText := v;
     evaluationBoxes := evaluationBoxes p;
     generateButton_aria_pressed := generateButton_aria_pressed p;
     currentPassword := currentPassword p |}.

Definition set_evaluationBoxes (v : box -> gset string) (p : page) : page :=
  {| passwordNum_textContent := passwordNum_textContent p;
     passwordNum_classList := passwordNum_classList p;
     optionError_classList := optionError_classList p;
     copiedText_classList := copiedText_classList p;
     lengthOutput_textContent := lengthOutput_textContent p;
     lengthInput_value := lengthInput_value p;
     checked := checked p;
     strengthEvaluationText := strengthEvaluationText p;
     evaluationBoxes := v;
     generateButton_aria_pressed := generateButton_aria_pressed p;
     currentPassword := currentPassword p |}.

Definition set_generateButton_aria_pressed (v : bool) (p : page) : page :=
  {| passwordNum_textContent := passwordNum_textContent p;
     passwordNum_classList := passwordNum_classList p;
     optionError_classList := optionError_classList p;
     copiedText_classList := copiedText_classList p;
     lengthOutput_textContent := lengthOutput_textContent p;
     lengthInput_value := lengthInput_value p;
     checked := checked p;
     strengthEvaluationText := strengthEvaluationText p;
     evaluationBoxes := evaluationBoxes p;
     generateButton_aria_pressed := v;
     currentPassword := currentPassword p |}.

Definition set_currentPassword (v : string) (p : page) : page :=
  {| passwordNum_textContent := passwordNum_textContent p;
     passwordNum_classList := passwordNum_classList p;
     optionError_classList := optionError_classList p;
     copiedText_classList := copiedText_classList p;
     lengthOutput_textContent := lengthOutput_textContent p;
     lengthInput_value := lengthInput_value p;
     checked := checked p;
     strengthEvaluationText := strengthEvaluationText p;
     evaluationBoxes := evaluationBoxes p;
     generateButton_aria_pressed := generateButton_aria_pressed p;
     currentPassword := v |}.

(** [f] applied to the class list of one box. *)
Definition on_box (b : box) (f : gset string -> gset string)
    (boxes : box -> gset string) : box -> gset string :=
  fun b' => if decide (b' = b) then f (boxes b') else boxes b'.

Definition updateRangeTrack (value : number) (p : page) : page :=
  set_lengthOutput_textContent value p.

Definition resetEvaluationBoxes (p : page) : page :=
  set_evaluationBoxes
    (fun b =>
       classList_add CSS_CLASSES.emptyEvalBox
         (classList_remove
            (CSS_CLASSES.fullEvalBoxTooWeak ++ CSS_CLASSES.fullEvalBoxWeak ++
             CSS_CLASSES.fullEvalBoxMedium ++ CSS_CLASSES.fullEvalBoxStrong)
            (evaluationBoxes p b)))
    p.

(** [!strength] on a label or [null]. *)
Definition not_label (strength : option string) : bool :=
  match strength with
  | None => true
  | Some s => not_string s
  end.

Definition updateStrengthEvaluation (length : number) (p : page) : page :=
  let strength := getPasswordStrength length in
  let p := resetEvaluationBoxes p in
  if not_label strength then set_strengthEvaluationText EmptyString p
  else
    let label := default EmptyString strength in
    let p := set_strengthEvaluationText label p in
    let activeBoxes := getActiveBoxes label in
    let strengthClasses := getStrengthClasses label in
    fold_left
      (fun p b =>
         set_evaluationBoxes
           (on_box b
              (fun classList =>
                 classList_add strengthClasses
                   (classList_remove CSS_CLASSES.emptyEvalBox classList))
              (evaluationBoxes p))
           p)
      activeBoxes p.

Definition showError (p : page) : page :=
  let p :=
    set_optionError_classList
      (classList_remove [CSS_CLASSES.hidden] (optionError_classList p)) p in
  set_passwordNum_classList
    (classList_add [CSS_CLASSES.hidden] (passwordNum_classList p)) p.

Definition hideError (p : page) : page :=
  let p :=
    set_passwordNum_classList
      (classList_remove [CSS_CLASSES.hidden] (passwordNum_classList p)) p in
  set_optionError_classList
    (classList_add [CSS_CLASSES.hidden] (optionError_classList p)) p.

Definition resetCheckboxes (p : page) : page :=
  set_checked
    {| uppercase := false; lowercase := false;
       numbers := false; symbols := false |} p.

Definition resetUI (p : page) : page :=
  let p := set_passwordNum_textContent EmptyString p in
  let p := set_strengthEvaluationText EmptyString p in
  let p := set_lengthInput_value (Int CONFIG.PASSWORD_LENGTH.DEFAULT) p in
  let p :=
    set_lengthOutput_textContent (Int CONFIG.PASSWORD_LENGTH.DEFAULT) p in
  let p :=
    set_copiedText_classList
      (classList_add [CSS_CLASSES.hidden] (copiedText_classList p)) p in
  let p := resetCheckboxes p in
  let p := resetEvaluationBoxes p in
  let p := hideError p in
  updateRangeTrack (Int CONFIG.PASSWORD_LENGTH.DEFAULT) p.

(** ** [generatePassword], the handler of the generate button *)

Section Handler.

(** The values the secure random source delivers to this call. *)
Variable entropy : nat -> Z.

(** The largest typed-array length of the engine. *)
Variable limit : N.

(** [lengthInput_value] is the slider's value as [parseInt(_, 10)] reads
    it. *)
Definition generatePassword (p : page) : page :=
  let length := lengthInput_value p in
  if isNaN length || js_lt length (Int CONFIG.PASSWORD_LENGTH.MIN)
  then resetUI p
  else if js_strict_eq length (Int 0) then resetUI p
  else
    let p := updateStrengthEvaluation length p in
    let characterPool := buildCharacterPool (checked p) in
    if String.eqb characterPool EmptyString then
      let p := showError p in
      let p := resetEvaluationBoxes p in
      let p := set_strengthEvaluationText EmptyString p in
      set_currentPassword EmptyString p
    else
      try_catch
        (let* password :=
           generateSecurePassword entropy limit length characterPool in
         let p := set_currentPassword password p in
         let p := hideError p in
         let p := set_passwordNum_textContent password p in
         Return (set_generateButton_aria_pressed true p))
        (fun error => showError p).

End Handler.

(** ** Character classes

    The keys of [CHARACTERS], which are also the names of the checkboxes. *)

Inductive CharacterClass : Type := Uppercase | Lowercase | Numbers | Symbols.

#[global] Instance CharacterClass_eq_dec : EqDecision CharacterClass.
Proof. solve_decision. Defined.

(** [CHARACTERS[k]] *)
Definition alphabet (k : CharacterClass) : string :=
  match k with
  | Uppercase => CHARACTERS.uppercase
  | Lowercase => CHARACTERS.lowercase
  | Numbers => CHARACTERS.numbers
  | Symbols => CHARACTERS.symbols
  end.

(** [elements.checkboxes[k].checked] *)
Definition is_checked (c : checkboxes) (k : CharacterClass) : bool :=
  match k with
  | Uppercase => uppercase c
  | Lowercase => lowercase c
  | Numbers => numbers c
  | Symbols => symbols c
  end.

(** The user ticks the checkbox [k]. *)
Definition tick (c : checkboxes) (k : CharacterClass) : checkboxes :=
  match k with
  | Uppercase =>
      {| uppercase := true; lowercase := lowercase c;
         numbers := numbers c; symbols := symbols c |}
  | Lowercase =>
      {| uppercase := uppercase c; lowercase := true;
         numbers := numbers c; symbols := symbols c |}
  | Numbers =>
      {| uppercase := uppercase c; lowercase := lowercase c;
         numbers := true; symbols := symbols c |}
  | Symbols =>
      {| uppercase := uppercase c; lowercase := lowercase c;
         numbers := numbers c; symbols := true |}
  end.

(** The state [resetCheckboxes] leaves: nothing ticked. *)
Definition unchecked : checkboxes :=
  {| uppercase := false; lowercase := false;
     numbers := false; symbols := false |}.

(** The checkboxes after the user ticked the classes of [order], one after
    the other, starting from [unchecked]. *)
Definition ticked (order : list CharacterClass) : checkboxes :=
  fold_left tick order unchecked.

(** The fixed order of the class groups in a pool. *)
Definition class_order : list CharacterClass :=
  [Uppercase; Lowercase; Numbers; Symbols].

(** The error of [generateSecurePassword] on an empty pool. *)
Definition empty_pool_error : exception :=
  Error "Character pool cannot be empty".

(** A character is printable and neither a letter nor a digit. *)
Definition symbol_char (c : ascii) : bool :=
  let n := nat_of_ascii c in
  ((33 <=? n) && (n <=? 47) || (58 <=? n) && (n <=? 64) ||
   (91 <=? n) && (n <=? 96) || (123 <=? n) && (n <=? 126))%nat.

(** The two failure conditions in the words of the specification:
    [EmptyPool] is an empty pool with a length above 0, [InvalidLength] a
    negative or non-numeric length. *)
Definition EmptyPool (length : number) (pool : string) : Prop :=
  pool = EmptyString /\ exists n, length = Int n /\ 0 < n.

Definition InvalidLength (length : number) : Prop :=
  length = NaN \/ exists n, length = Int n /\ n < 0.

(** A completion that is a [throw]. *)
Definition throws {A : Type} (c : completion A) : Prop :=
  exists e, c = Throw e.

(** A page before any interaction: every text empty, no class name set,
    nothing ticked, the slider at 0. *)
Definition blank_page : page :=
  {| passwordNum_textContent := EmptyString;
     passwordNum_classList := ∅;
     optionError_classList := ∅;
     copiedText_classList := ∅;
     lengthOutput_textContent := Int 0;
     lengthInput_value := Int 0;
     checked := unchecked;
     strengthEvaluationText := EmptyString;
     evaluationBoxes := fun _ => ∅;
     generateButton_aria_pressed := false;
     currentPassword := EmptyString |}.

(** ** Validation of the cached elements

    [elements[key]] is an element or [null]; [validateDOMElements] only
    looks at its truthiness, which [found key] gives. *)

Definition requiredElements : list string :=
  ["passwordNum"; "lengthInput"; "lengthOutput"; "generateButton"].

(** [keys.forEach(callback)] with a callback that may throw: the first throw
    ends the iteration. *)
Fixpoint forEach {A : Type} (callback : A -> completion unit) (keys : list A)
  : completion unit :=
  match keys with
  | [] => Return tt
  | key :: rest => let* _ := callback key in forEach callback rest
  end.

Definition validateDOMElements (found : string -> bool) : completion unit :=
  forEach
    (fun key =>
       if negb (found key)
       then Throw (Error ("Required DOM element not found: " +:+ key))
       else Return tt)
    requiredElements.

(** ** The slider *)

(** [handleRangeInput]: [value] is [parseInt(event.target.value, 10)]. *)
Definition handleRangeInput (value : number) (p : page) : page :=
  if negb (isNaN value) then updateRangeTrack value p else p.

(** ** The copied message, its timer and the clipboard

    [state.copiedTimeoutId] is [null] or the id of a timeout.  The pending
    timeouts and the clipboard belong to the browser: [timers] is the set
    of the ids of the pending timeouts, [next_timer] the id the next
    [setTimeout] returns (ids are positive integers, handed out in
    increasing order), [clipboard] the text on the clipboard.  The script
    has one [setTimeout] call, so every pending timeout runs
    [copied_timeout]. *)

Record app_state : Type := {
  document : page;
  copiedTimeoutId : option nat;
  timers : gset nat;
  next_timer : nat;
  clipboard : string
}.

Definition on_document (f : page -> page) (s : app_state) : app_state :=
  {| document := f (document s);
     copiedTimeoutId := copiedTimeoutId s;
     timers := timers s;
     next_timer := next_timer s;
     clipboard := clipboard s |}.

Definition set_copiedTimeoutId (v : option nat) (s : app_state) : app_state :=
  {| document := document s;
     copiedTimeoutId := v;
     timers := timers s;
     next_timer := next_timer s;
     clipboard := clipboard s |}.

Definition set_clipboard (v : string) (s : app_state) : app_state :=
  {| document := document s;
     copiedTimeoutId := copiedTimeoutId s;
     timers := timers s;
     next_timer := next_timer s;
     clipboard := v |}.

(** [clearTimeout(id)]: the timeout is no longer pending; an id that is not
    pending changes nothing. *)
Definition clearTimeout (id : nat) (s : app_state) : app_state :=
  {| document := document s;
     copiedTimeoutId := copiedTimeoutId s;
     timers := timers s ∖ {[id]};
     next_timer := next_timer s;
     clipboard := clipboard s |}.

(** [setTimeout(callback, duration)]: a new pending timeout; its id is
    returned. *)
Definition setTimeout (s : app_state) : nat * app_state :=
  (next_timer s,
   {| document := document s;
      copiedTimeoutId := copiedTimeoutId s;
      timers := timers s ∪ {[next_timer s]};
      next_timer := S (next_timer s);
      clipboard := clipboard s |}).

(** [if (id)] on [null] or a timer id: [null] and 0 are falsy. *)
Definition timer_truthy (id : option nat) : bool :=
  match id with
  | Some n => negb (n =? 0)%nat
  | None => false
  end.

(** The callback given to [setTimeout]. *)
Definition copied_timeout (s : app_state) : app_state :=
  let s :=
    on_document
      (fun p =>
         set_copiedText_classList
           (classList_add [CSS_CLASSES.hidden] (copiedText_classList p)) p)
      s in
  set_copiedTimeoutId None s.

Definition showCopiedMessage (s : app_state) : app_state :=
  let s :=
    if timer_truthy (copiedTimeoutId s)
    then clearTimeout (default 0%nat (copiedTimeoutId s)) s
    else s in
  let s :=
    on_document
      (fun p =>
         set_copiedText_classList
           (classList_remove [CSS_CLASSES.hidden] (copiedText_classList p)) p)
      s in
  let (id, s) := setTimeout s in
  set_copiedTimeoutId (Some id) s.

(** How a copy attempt ends: [writeText] resolved; [writeText] rejected and
    the fallback ran through, [copied] telling whether [execCommand("copy")]
    put the text of the textarea on the clipboard; or the fallback threw as
    well. *)
Inductive copy_outcome : Type :=
| Written
| FallbackDone (copied : bool)
| Failed.

(** [copyPasswordToClipboard], with the awaited [writeText] settled before
    the next event.  The alert of the last branch is not kept. *)
Definition copyPasswordToClipboard (outcome : copy_outcome) (s : app_state)
  : app_state :=
  if not_string (currentPassword (document s)) then s
  else
    match outcome with
    | Written =>
        let s := set_clipboard (currentPassword (document s)) s in
        showCopiedMessage s
    | FallbackDone copied =>
        let s :=
          if copied then set_clipboard (currentPassword (document s)) s
          else s in
        showCopiedMessage s
    | Failed => s
    end.

(** ** Events

    What can happen to the running page: the user moves the slider (the
    browser stores the value, then [handleRangeInput] runs), clicks a
    checkbox (the browser flips it; no handler), clicks the generate button
    ([handleGenerateClick], with the values the random source delivers to
    that call), activates the copy image, or a pending timeout expires. *)

Definition toggle (c : checkboxes) (k : CharacterClass) : checkboxes :=
  match k with
  | Uppercase =>
      {| uppercase := negb (uppercase c); lowercase := lowercase c;
         numbers := numbers c; symbols := symbols c |}
  | Lowercase =>
      {| uppercase := uppercase c; lowercase := negb (lowercase c);
         numbers := numbers c; symbols := symbols c |}
  | Numbers =>
      {| uppercase := uppercase c; lowercase := lowercase c;
         numbers := negb (numbers c); symbols := symbols c |}
  | Symbols =>
      {| uppercase := uppercase c; lowercase := lowercase c;
         numbers := numbers c; symbols := negb (symbols c) |}
  end.

Inductive event : Type :=
| SlideTo (value : Z)
| ClickCheckbox (k : CharacterClass)
| ClickGenerate (entropy : nat -> Z)
| ClickCopy (outcome : copy_outcome)
| TimeoutExpires (id : nat).

Section Running.

(** The largest typed-array length of the engine the page runs on. *)
Variable limit : N.

Definition handle (s : app_state) (e : event) : app_state :=
  match e with
  | SlideTo value =>
      on_document
        (fun p => handleRangeInput (Int value)
                    (set_lengthInput_value (Int value) p)) s
  | ClickCheckbox k =>
      on_document (fun p => set_checked (toggle (checked p) k) p) s
  | ClickGenerate entropy => on_document (generatePassword entropy limit) s
  | ClickCopy outcome => copyPasswordToClipboard outcome s
  | TimeoutExpires id =>
      if decide (id ∈ timers s)
      then copied_timeout (clearTimeout id s)
      else s
  end.

(** The state [App.init] leaves when the validation passes: the slider at
    its default, the page reset, no timeout pending. *)
Definition init_state (p : page) : app_state :=
  {| document :=
       resetUI (set_lengthInput_value (Int CONFIG.PASSWORD_LENGTH.DEFAULT) p);
     copiedTimeoutId := None;
     timers := ∅;
     next_timer := 1;
     clipboard := EmptyString |}.

Definition run (s : app_state) (events : list event) : app_state :=
  fold_left handle events s.

End Running.

(** The largest typed-array length of a 32-bit-indexed engine, for the
    examples: 2^32 - 1 elements. *)
Definition example_limit : N := 4294967295.

(** ** Styles of an evaluation box *)

Definition strength_classes : list string :=
  CSS_CLASSES.fullEvalBoxTooWeak ++ CSS_CLASSES.fullEvalBoxWeak ++
  CSS_CLASSES.fullEvalBoxMedium ++ CSS_CLASSES.fullEvalBoxStrong.

(** The box is drawn empty: both empty classes, no strength class. *)
Definition box_empty (classList : gset string) : Prop :=
  (forall c, c ∈ CSS_CLASSES.emptyEvalBox -> c ∈ classList) /\
  (forall c, c ∈ strength_classes -> c ∉ classList).

(** The box is drawn with [classes]: all of them, no empty class, and no
    strength class outside [classes]. *)
Definition box_painted (classes : list string) (classList : gset string)
  : Prop :=
  (forall c, c ∈ classes -> c ∈ classList) /\
  (forall c, c ∈ CSS_CLASSES.emptyEvalBox -> c ∉ classList) /\
  (forall c, c ∈ strength_classes -> c ∉ classes -> c ∉ classList).

(** An element is shown when its class list lacks [hidden]. *)
Definition shown (classList : gset string) : Prop :=
  CSS_CLASSES.hidden ∉ classList.

(** ** Consistency of a running page *)

(** At most one timeout is pending, and it is the one [state] remembers. *)
Definition timers_consistent (s : app_state) : Prop :=
  (1 <= next_timer s)%nat /\
  match copiedTimeoutId s with
  | Some id => (1 <= id < next_timer s)%nat /\ timers s = {[id]}
  | None => timers s = ∅
  end.

(** The output beside the slider shows the slider's value; exactly one of
    the password and the select-option message is shown; and a password
    that is shown is the current password, with the rating of its length
    as the strength text. *)
Definition display_consistent (p : page) : Prop :=
  (exists value : Z,
     lengthInput_value p = Int value /\
     lengthOutput_textContent p = Int value) /\
  (shown (passwordNum_classList p) <-> ~ shown (optionError_classList p)) /\
  (shown (passwordNum_classList p) ->
   passwordNum_textContent p <> EmptyString ->
   passwordNum_textContent p = currentPassword p /\
   strengthEvaluationText p =
   default EmptyString
     (getPasswordStrength
        (Int (Z.of_nat (String.length (passwordNum_textContent p)))))).

Definition consistent (s : app_state) : Prop :=
  timers_consistent s /\
  (shown (copiedText_classList (document s)) ->
   is_Some (copiedTimeoutId s)) /\
  display_consistent (document s).

(** ** The distribution of the index

    [index_of value poolLength] is the index the loop computes from one
    32-bit [value] of the filled array. *)
Definition index_of (value poolLength : Z) : number :=
  randomIndex [value] poolLength 0.

(** Exactly [count] of the 32-bit values select [index]: [nth] lists them
    without repetition. *)
Definition selected_by (poolLength index count : Z) : Prop :=
  exists nth : Z -> Z,
    (forall k, 0 <= k < count ->
       0 <= nth k < 2 ^ 32 /\ index_of (nth k) poolLength = Int index) /\
    (forall j k, 0 <= j < count -> 0 <= k < count -> nth j = nth k -> j = k) /\
    (forall value,
       0 <= value < 2 ^ 32 -> index_of value poolLength = Int index ->
       exists k, 0 <= k < count /\ nth k = value).

(** Uniform indices, in the words of the specification: for a uniformly
    random 32-bit value every index of the pool is equally likely, that is,
    selected by the same number of values. *)
Definition uniform_indices (poolLength : Z) : Prop :=
  forall i j ci cj : Z,
    0 <= i < poolLength -> 0 <= j < poolLength ->
    selected_by poolLength i ci -> selected_by poolLength j cj -> ci = cj.

(** * Properties *)

(** ** Strings and arrays *)

Lemma not_string_true (s : string) : not_string s = true <-> s = EmptyString.
Proof. destruct s; simpl; split; congruence. Qed.

Lemma length_zero_empty (s : string) :
  (String.length s =? 0)%nat = true <-> s = EmptyString.
Proof.
  destruct s; simpl; split; intros H; try reflexivity; discriminate.
Qed.

Lemma get_in_range (s : string) (n : nat) :
  (n < String.length s)%nat ->
  exists c, String.get n s = Some c /\ In c (list_ascii_of_string s).
Proof.
  revert n. induction s as [|a s IH]; intros n Hn; simpl in *; [lia|].
  destruct n as [|n].
  - exists a. split; [reflexivity | now left].
  - destruct (IH n) as (c & Hc & Hin); [lia|].
    exists c. split; [exact Hc | now right].
Qed.

Lemma join_all_some (chars : list ascii) :
  join (map Some chars) = string_of_list_ascii chars.
Proof. induction chars as [|c l IH]; simpl; [reflexivity | now rewrite IH]. Qed.

Lemma loop_range_spec (length : number) (i : nat) :
  In i (loop_range length) <-> js_lt (Int (Z.of_nat i)) length = true.
Proof.
  destruct length as [n|]; simpl.
  - rewrite in_seq, Z.ltb_lt. lia.
  - split; [intros [] | discriminate].
Qed.

(** ** The loop of [generateSecurePassword] *)

Section GeneratorFacts.

Variable entropy : nat -> Z.
Variable limit : N.

Lemma random_fill_element (array : list Z) (i : nat) :
  (i < Datatypes.length array)%nat ->
  element (random_fill entropy array) i =
  Int (Z.modulo (entropy i) (2 ^ 32)).
Proof.
  intros Hi. unfold element, random_fill.
  rewrite list_lookup_imap.
  destruct (lookup_lt_is_Some_2 array i Hi) as [v ->]. reflexivity.
Qed.

(** The random source fills an array of at most 16384 elements and refuses
    a longer one. *)
Lemma getRandomValues_within (array : list Z) :
  Z.of_nat (Datatypes.length array) <= 16384 ->
  getRandomValues entropy array = Return (random_fill entropy array).
Proof.
  intros H. unfold getRandomValues, byteLength.
  destruct (Z.ltb_spec 65536 (4 * Z.of_nat (Datatypes.length array)));
    [lia | reflexivity].
Qed.

Lemma getRandomValues_beyond (array : list Z) :
  16384 < Z.of_nat (Datatypes.length array) ->
  getRandomValues entropy array = Throw QuotaExceededError.
Proof.
  intros H. unfold getRandomValues, byteLength.
  destruct (Z.ltb_spec 65536 (4 * Z.of_nat (Datatypes.length array)));
    [reflexivity | lia].
Qed.

Lemma Uint32Array_within (n : Z) :
  0 <= n <= Z.of_N limit ->
  Uint32Array limit (Int n) = Return (replicate (Z.to_nat n) 0).
Proof.
  intros H. unfold Uint32Array.
  destruct (Z.ltb_spec n 0); [lia|].
  destruct (Z.ltb_spec (Z.of_N limit) n); [lia | reflexivity].
Qed.

(** The loop pushes one element per turn, in the order of the turns. *)
Lemma fold_push_random (randomValues : list Z) (pool : string) (poolLength : Z)
    (indices : list nat) (password : list (option ascii)) :
  fold_left (push_random randomValues pool poolLength) indices password =
  password ++
    map (fun i => char_at pool (randomIndex randomValues poolLength i)) indices.
Proof.
  revert password. induction indices as [|i indices IH]; intros password; simpl.
  - now rewrite app_nil_r.
  - rewrite IH. unfold push_random. now rewrite <- app_assoc.
Qed.

(** Every index the loop computes is a position of the pool. *)
Lemma randomIndex_in_pool (n : nat) (pool : string) (i : nat) :
  pool <> EmptyString -> (i < n)%nat ->
  exists (r : Z) (c : ascii),
    randomIndex (random_fill entropy (replicate n 0))
                (Z.of_nat (String.length pool)) i = Int r /\
    r = Z.rem (Z.modulo (entropy i) (2 ^ 32)) (Z.of_nat (String.length pool)) /\
    0 <= r < Z.of_nat (String.length pool) /\
    char_at pool (Int r) = Some c /\
    In c (list_ascii_of_string pool).
Proof.
  intros Hpool Hi.
  assert (Hlen : 0 < Z.of_nat (String.length pool)).
  { destruct pool; [congruence | simpl; lia]. }
  unfold randomIndex.
  rewrite random_fill_element by (rewrite length_replicate; exact Hi).
  simpl.
  destruct (Z.eqb_spec (Z.of_nat (String.length pool)) 0) as [E|_]; [lia|].
  set (v := Z.modulo (entropy i) (2 ^ 32)).
  assert (Hv : 0 <= v) by (apply Z.mod_pos_bound; lia).
  pose proof (Z.rem_bound_pos v _ Hv Hlen) as Hr.
  set (r := Z.rem v (Z.of_nat (String.length pool))) in *.
  destruct (get_in_range pool (Z.to_nat r)) as (c & Hc & Hin); [lia|].
  exists r, c.
  split; [reflexivity|]. split; [reflexivity|]. split; [lia|].
  split; [|exact Hin]. simpl.
  destruct (Z.ltb_spec r 0); [lia | exact Hc].
Qed.

(** On a non-empty pool and a length within both limits the function runs
    its loop on the filled array. *)
Lemma generate_within (n : nat) (pool : string) :
  pool <> EmptyString ->
  Z.of_nat n <= 16384 -> Z.of_nat n <= Z.of_N limit ->
  generateSecurePassword entropy limit (Int (Z.of_nat n)) pool =
  Return
    (join
       (map (fun i => char_at pool
                        (randomIndex (random_fill entropy (replicate n 0))
                           (Z.of_nat (String.length pool)) i))
            (seq 0 n))).
Proof.
  intros Hpool Hquota Hlimit. unfold generateSecurePassword.
  assert (G : not_string pool || (String.length pool =? 0)%nat = false).
  { destruct pool; [congruence | reflexivity]. }
  rewrite G, Uint32Array_within by lia. cbn [bind].
  rewrite Nat2Z.id, getRandomValues_within
    by (rewrite length_replicate; exact Hquota).
  cbn [bind loop_range]. rewrite Nat2Z.id, fold_push_random. reflexivity.
Qed.

(** It then returns the characters at the computed indices, in the order of
    the draws. *)
Lemma generate_returns (n : nat) (pool : string) :
  pool <> EmptyString ->
  Z.of_nat n <= 16384 -> Z.of_nat n <= Z.of_N limit ->
  exists chars : list ascii,
    generateSecurePassword entropy limit (Int (Z.of_nat n)) pool =
      Return (string_of_list_ascii chars) /\
    Datatypes.length chars = n /\
    Forall (fun c => In c (list_ascii_of_string pool)) chars.
Proof.
  intros Hpool Hquota Hlimit.
  rewrite (generate_within n pool Hpool Hquota Hlimit).
  assert (H : forall indices : list nat,
             Forall (fun i => (i < n)%nat) indices ->
             exists chars : list ascii,
               map (fun i => char_at pool
                      (randomIndex (random_fill entropy (replicate n 0))
                         (Z.of_nat (String.length pool)) i)) indices =
               map Some chars /\
               Datatypes.length chars = Datatypes.length indices /\
               Forall (fun c => In c (list_ascii_of_string pool)) chars).
  { induction indices as [|i indices IH]; intros Hindices.
    - exists []. repeat split; constructor.
    - inversion Hindices as [|? ? Hi Hrest]; subst.
      destruct (IH Hrest) as (chars & Hmap & Hlen & Hall).
      destruct (randomIndex_in_pool n pool i Hpool Hi)
        as (r & c & Hr & _ & _ & Hc & Hin).
      exists (c :: chars). cbn [map Datatypes.length]. rewrite Hr, Hc, Hmap, Hlen.
      repeat split. now constructor. }
  destruct (H (seq 0 n)) as (chars & Hmap & Hlen & Hall).
  { apply List.Forall_forall. intros i Hi. apply in_seq in Hi. lia. }
  exists chars. rewrite Hmap, join_all_some, Hlen, length_seq.
  repeat split; assumption.
Qed.

Lemma generate_empty_pool (length : number) :
  generateSecurePassword entropy limit length EmptyString =
  Throw empty_pool_error.
Proof. reflexivity. Qed.

Lemma generate_negative (n : Z) (pool : string) :
  pool <> EmptyString -> n < 0 ->
  generateSecurePassword entropy limit (Int n) pool = Throw RangeError.
Proof.
  intros Hpool Hn. unfold generateSecurePassword.
  destruct pool; [congruence|]. cbn [not_string orb String.length Nat.eqb].
  unfold Uint32Array. destruct (Z.ltb_spec n 0); [reflexivity | lia].
Qed.

(** A length the engine cannot allocate is refused by the constructor. *)
Lemma generate_beyond_limit (n : Z) (pool : string) :
  pool <> EmptyString -> Z.of_N limit < n ->
  generateSecurePassword entropy limit (Int n) pool = Throw RangeError.
Proof.
  intros Hpool Hn. unfold generateSecurePassword.
  destruct pool; [congruence|]. cbn [not_string orb String.length Nat.eqb].
  unfold Uint32Array. destruct (Z.ltb_spec n 0); [reflexivity|].
  destruct (Z.ltb_spec (Z.of_N limit) n); [reflexivity | lia].
Qed.

(** A length the engine allocates but above 16384 is refused by the random
    source. *)
Lemma generate_beyond_quota (n : Z) (pool : string) :
  pool <> EmptyString -> 16384 < n -> n <= Z.of_N limit ->
  generateSecurePassword entropy limit (Int n) pool = Throw QuotaExceededError.
Proof.
  intros Hpool Hquota Hlimit. unfold generateSecurePassword.
  assert (G : not_string pool || (String.length pool =? 0)%nat = false).
  { destruct pool; [congruence | reflexivity]. }
  rewrite G, Uint32Array_within by lia. cbn [bind].
  rewrite getRandomValues_beyond by (rewrite length_replicate; lia).
  reflexivity.
Qed.

Lemma generate_NaN (pool : string) :
  pool <> EmptyString ->
  generateSecurePassword entropy limit NaN pool = Return EmptyString.
Proof. intros Hpool. destruct pool; [congruence | reflexivity]. Qed.

End GeneratorFacts.

Lemma length_string_of_list_ascii (chars : list ascii) :
  String.length (string_of_list_ascii chars) = Datatypes.length chars.
Proof. induction chars as [|c l IH]; simpl; [reflexivity | now rewrite IH]. Qed.

Lemma get_string_of_list_ascii (chars : list ascii) (i : nat) :
  String.get i (string_of_list_ascii chars) = chars !! i.
Proof.
  revert i. induction chars as [|c chars IH]; intros [|i]; simpl;
    try reflexivity. apply IH.
Qed.

(** Within both limits the function returns one character for each turn of
    the loop: the [i]-th is the one the lookup of turn [i] found. *)
Lemma generate_chars (entropy : nat -> Z) (limit : N) (n : nat)
    (pool : string) :
  pool <> EmptyString ->
  Z.of_nat n <= 16384 -> Z.of_nat n <= Z.of_N limit ->
  exists password : string,
    generateSecurePassword entropy limit (Int (Z.of_nat n)) pool =
      Return password /\
    String.length password = n /\
    forall i : nat,
      (i < n)%nat ->
      is_Some (String.get i password) /\
      String.get i password =
      char_at pool
        (randomIndex (random_fill entropy (replicate n 0))
           (Z.of_nat (String.length pool)) i).
Proof.
  intros Hpool Hquota Hlimit.
  rewrite (generate_within entropy limit n pool Hpool Hquota Hlimit).
  set (pick := fun i : nat =>
         char_at pool
           (randomIndex (random_fill entropy (replicate n 0))
              (Z.of_nat (String.length pool)) i)).
  assert (H : forall indices : list nat,
             Forall (fun i => (i < n)%nat) indices ->
             exists chars : list ascii, map pick indices = map Some chars).
  { induction indices as [|i indices IH]; intros Hall.
    - now exists [].
    - inversion Hall as [|? ? Hi Hrest]; subst.
      destruct (IH Hrest) as (chars & Hmap).
      destruct (randomIndex_in_pool entropy n pool i Hpool Hi)
        as (r & c & Hr & _ & _ & Hc & _).
      exists (c :: chars). cbn [map]. rewrite <- Hmap. f_equal.
      unfold pick. now rewrite Hr. }
  destruct (H (seq 0 n)) as (chars & Hmap).
  { apply List.Forall_forall. intros i Hi. apply in_seq in Hi. lia. }
  assert (Hlen : Datatypes.length chars = n).
  { apply (f_equal (@Datatypes.length _)) in Hmap.
    rewrite !length_map, length_seq in Hmap. now symmetry. }
  exists (string_of_list_ascii chars). rewrite Hmap, join_all_some.
  split; [reflexivity|]. split; [now rewrite length_string_of_list_ascii|].
  intros i Hi. rewrite get_string_of_list_ascii.
  apply (f_equal (fun l => l !! i)) in Hmap.
  rewrite !list_lookup_fmap, lookup_seq_lt in Hmap by exact Hi.
  simpl in Hmap. destruct (chars !! i) as [c|] eqn:Hc.
  - simpl in Hmap. injection Hmap as Hmap.
    split; [now exists c | symmetry; exact Hmap].
  - apply lookup_ge_None in Hc. lia.
Qed.

(** ** Generation *)

(** C1, as stated, fails: with length 16385 and the pool "a" the function
    returns on no engine, whatever its typed-array limit: it throws,
    because [crypto.getRandomValues] refuses an array of more than 65536
    bytes. *)
Lemma generate_length_counterexample :
  ~ exists (limit : N) (password : string),
      generateSecurePassword (fun _ => 0) limit (Int 16385) "a" =
      Return password.
Proof.
  intros (limit & password & Hret).
  destruct (Z_lt_le_dec (Z.of_N limit) 16385) as [Hlt|Hle].
  - rewrite generate_beyond_limit in Hret;
      [discriminate Hret | discriminate | exact Hlt].
  - rewrite generate_beyond_quota in Hret;
      [discriminate Hret | discriminate | lia | exact Hle].
Qed.

(** C1, amended. For every length L from 1 to 16384 that the engine's typed
    arrays admit and every non-empty pool P, [generateSecurePassword]
    returns (it does not throw) a string of exactly L characters, and each
    of them is a character of P, whatever values the random source
    delivers.  For a length above 16384 it throws. *)
Theorem generateSecurePassword_length_and_members
    (entropy : nat -> Z) (limit : N) (L : Z) (P : string) :
  P <> EmptyString ->
  (1 <= L <= 16384 -> L <= Z.of_N limit ->
   exists password : string,
     generateSecurePassword entropy limit (Int L) P = Return password /\
     Z.of_nat (String.length password) = L /\
     forall c : ascii,
       In c (list_ascii_of_string password) -> In c (list_ascii_of_string P)) /\
  (16384 < L -> throws (generateSecurePassword entropy limit (Int L) P)).
Proof.
  intros HP. split.
  - intros HL Hlimit.
    destruct (generate_returns entropy limit (Z.to_nat L) P HP)
      as (chars & Hret & Hlen & Hall); [lia | lia |].
    rewrite Z2Nat.id in Hret by lia.
    exists (string_of_list_ascii chars). split; [exact Hret|]. split.
    + rewrite length_string_of_list_ascii, Hlen. lia.
    + intros c Hc. rewrite list_ascii_of_string_of_list_ascii in Hc.
      rewrite List.Forall_forall in Hall. now apply Hall.
  - intros HL. destruct (Z_lt_le_dec (Z.of_N limit) L) as [Hlt|Hle].
    + exists RangeError. now apply generate_beyond_limit.
    + exists QuotaExceededError. now apply generate_beyond_quota.
Qed.

Lemma generateSecurePassword_length_and_members_witness :
  exists password : string,
    generateSecurePassword (fun i => Z.of_nat i * 2654435761 + 7)
      example_limit (Int 4) CHARACTERS.numbers = Return password /\
    Z.of_nat (String.length password) = 4 /\
    forall c : ascii,
      In c (list_ascii_of_string password) ->
      In c (list_ascii_of_string CHARACTERS.numbers).
Proof.
  apply (generateSecurePassword_length_and_members
           (fun i => Z.of_nat i * 2654435761 + 7) example_limit 4
           CHARACTERS.numbers).
  - discriminate.
  - lia.
  - unfold example_limit. lia.
Defined.

(** The same call, evaluated: the source delivers 7, 2654435768, 5308871529
    and 7963307290; stored as 32-bit values they are 7, 2654435768,
    1013904233 and 3668339994, which select the digits 7, 8, 3 and 4. *)
Example generate_four_digits :
  generateSecurePassword (fun i => Z.of_nat i * 2654435761 + 7)
    example_limit (Int 4) CHARACTERS.numbers = Return "7834"%string.
Proof. reflexivity. Qed.

(** ** Strength rating *)

Ltac strength_cases :=
  unfold getPasswordStrength, js_strict_eq, js_ge, js_le; simpl;
  rewrite ?Z.geb_leb;
  repeat match goal with
         | |- context [Z.eqb ?a ?b] => destruct (Z.eqb_spec a b)
         | |- context [Z.leb ?a ?b] => destruct (Z.leb_spec a b)
         end;
  simpl; try reflexivity; try lia.

(** C2. [getPasswordStrength] rates an integer length by fixed buckets:
    0 gives [null], 1 to 4 "too weak!", 5 to 8 "weak", 9 to 12 "medium" and
    13 to 16 "strong"; in particular at 0, 4, 8, 12 and 16. *)
Theorem getPasswordStrength_buckets (length : Z) :
  (length = 0 -> getPasswordStrength (Int length) = None) /\
  (1 <= length <= 4 ->
   getPasswordStrength (Int length) = Some STRENGTH_LABELS.TOO_WEAK) /\
  (5 <= length <= 8 ->
   getPasswordStrength (Int length) = Some STRENGTH_LABELS.WEAK) /\
  (9 <= length <= 12 ->
   getPasswordStrength (Int length) = Some STRENGTH_LABELS.MEDIUM) /\
  (13 <= length <= 16 ->
   getPasswordStrength (Int length) = Some STRENGTH_LABELS.STRONG) /\
  getPasswordStrength (Int 0) = None /\
  getPasswordStrength (Int 4) = Some STRENGTH_LABELS.TOO_WEAK /\
  getPasswordStrength (Int 8) = Some STRENGTH_LABELS.WEAK /\
  getPasswordStrength (Int 12) = Some STRENGTH_LABELS.MEDIUM /\
  getPasswordStrength (Int 16) = Some STRENGTH_LABELS.STRONG.
Proof.
  repeat split; try reflexivity; intros H; strength_cases.
Qed.

Lemma getPasswordStrength_buckets_witness :
  getPasswordStrength (Int 7) = Some STRENGTH_LABELS.WEAK.
Proof.
  apply (proj1 (proj2 (proj2 (getPasswordStrength_buckets 7)))). lia.
Defined.

(** C6. [getPasswordStrength] gives a result for every integer length:
    [null] for 0, for every negative length and for every length above 16,
    and otherwise one of the four labels, never anything else. *)
Theorem getPasswordStrength_total (length : Z) :
  (length = 0 -> getPasswordStrength (Int length) = None) /\
  (length < 0 -> getPasswordStrength (Int length) = None) /\
  (16 < length -> getPasswordStrength (Int length) = None) /\
  (getPasswordStrength (Int length) = None \/
   getPasswordStrength (Int length) = Some STRENGTH_LABELS.TOO_WEAK \/
   getPasswordStrength (Int length) = Some STRENGTH_LABELS.WEAK \/
   getPasswordStrength (Int length) = Some STRENGTH_LABELS.MEDIUM \/
   getPasswordStrength (Int length) = Some STRENGTH_LABELS.STRONG).
Proof.
  repeat split; try (intros H; strength_cases).
  strength_cases; auto 6.
Qed.

Lemma getPasswordStrength_total_witness :
  getPasswordStrength (Int 17) = None /\ getPasswordStrength (Int (-3)) = None.
Proof.
  split.
  - apply (proj1 (proj2 (proj2 (getPasswordStrength_total 17)))). lia.
  - apply (proj1 (proj2 (getPasswordStrength_total (-3)))). lia.
Defined.

(** ** Alphabets and the character pool *)

(** C8. Each class has a fixed, ordered alphabet: uppercase is the 26
    letters A to Z in order, lowercase the 26 letters a to z, numbers the
    10 digits 0 to 9, and symbols 26 distinct printable characters that are
    neither letters nor digits.  With only the numbers box ticked
    [buildCharacterPool] returns "0123456789". *)
Theorem alphabets_fixed :
  list_ascii_of_string (alphabet Uppercase) = map ascii_of_nat (seq 65 26) /\
  String.length (alphabet Uppercase) = 26%nat /\
  list_ascii_of_string (alphabet Lowercase) = map ascii_of_nat (seq 97 26) /\
  String.length (alphabet Lowercase) = 26%nat /\
  list_ascii_of_string (alphabet Numbers) = map ascii_of_nat (seq 48 10) /\
  String.length (alphabet Numbers) = 10%nat /\
  forallb symbol_char (list_ascii_of_string (alphabet Symbols)) = true /\
  String.length (alphabet Symbols) = 26%nat /\
  NoDup (list_ascii_of_string (alphabet Symbols)) /\
  buildCharacterPool (ticked [Numbers]) = "0123456789"%string.
Proof.
  repeat split; try reflexivity.
  apply (bool_decide_unpack _). vm_compute. reflexivity.
Qed.

Lemma is_checked_tick (c : checkboxes) (k k' : CharacterClass) :
  is_checked (tick c k) k' = bool_decide (k = k') || is_checked c k'.
Proof. destruct c, k, k'; reflexivity. Qed.

Lemma is_checked_fold_tick (order : list CharacterClass) (c : checkboxes)
    (k : CharacterClass) :
  is_checked (fold_left tick order c) k = true <->
  In k order \/ is_checked c k = true.
Proof.
  revert c. induction order as [|k0 order IH]; intros c; simpl.
  - tauto.
  - rewrite IH, is_checked_tick, orb_true_iff, bool_decide_eq_true. tauto.
Qed.

Lemma is_checked_ticked (order : list CharacterClass) (k : CharacterClass) :
  is_checked (ticked order) k = true <-> In k order.
Proof.
  unfold ticked. rewrite is_checked_fold_tick.
  destruct k; simpl; intuition discriminate.
Qed.

Lemma buildCharacterPool_concat (c : checkboxes) :
  buildCharacterPool c =
  String.concat EmptyString
    (map alphabet (List.filter (is_checked c) class_order)).
Proof. destruct c as [[] [] [] []]; reflexivity. Qed.

(** C4. [buildCharacterPool] returns the alphabets of the ticked classes,
    concatenated in the fixed order uppercase, lowercase, numbers, symbols.
    The result depends only on which classes are ticked: two sequences of
    ticks with the same classes give the same pool, whatever their order.
    With nothing ticked the result is the empty string, an ordinary return
    value. *)
Theorem buildCharacterPool_fixed_order
    (c : checkboxes) (order1 order2 : list CharacterClass) :
  buildCharacterPool c =
    String.concat EmptyString
      (map alphabet (List.filter (is_checked c) class_order)) /\
  ((forall k : CharacterClass, In k order1 <-> In k order2) ->
   buildCharacterPool (ticked order1) = buildCharacterPool (ticked order2)) /\
  buildCharacterPool unchecked = EmptyString /\
  buildCharacterPool (ticked []) = EmptyString.
Proof.
  split; [apply buildCharacterPool_concat|].
  split; [|split; reflexivity].
  intros Hsame. rewrite !buildCharacterPool_concat. f_equal. f_equal.
  apply List.filter_ext. intros k.
  apply eq_true_iff_eq. rewrite !is_checked_ticked. apply Hsame.
Qed.

Lemma buildCharacterPool_fixed_order_witness :
  buildCharacterPool (ticked [Symbols; Uppercase; Symbols]) =
  buildCharacterPool (ticked [Uppercase; Symbols]).
Proof.
  apply (proj1 (proj2 (buildCharacterPool_fixed_order
                         unchecked
                         [Symbols; Uppercase; Symbols]
                         [Uppercase; Symbols]))).
  intros k. simpl. tauto.
Defined.

(** Ticking symbols before uppercase still puts the letters first. *)
Example pool_symbols_then_uppercase :
  buildCharacterPool (ticked [Symbols; Uppercase]) =
  "ABCDEFGHIJKLMNOPQRSTUVWXYZ!@#$%^&*()_+-=[]{}|;:,.<>?"%string.
Proof. reflexivity. Qed.

(** ** Index safety *)

(** C9, as stated, fails: with length 16385 and the pool "ab" the function
    does not return on any engine, so it is not total over every length
    >= 0. *)
Lemma generate_not_total_counterexample :
  ~ exists (limit : N) (password : string),
      generateSecurePassword (fun i => Z.of_nat i) limit (Int 16385) "ab" =
      Return password.
Proof.
  intros (limit & password & Hret).
  destruct (Z_lt_le_dec (Z.of_N limit) 16385) as [Hlt|Hle].
  - rewrite generate_beyond_limit in Hret;
      [discriminate Hret | discriminate | exact Hlt].
  - rewrite generate_beyond_quota in Hret;
      [discriminate Hret | discriminate | lia | exact Hle].
Qed.

(** C9, amended. For every non-empty pool and every length from 0 to 16384
    that the engine's typed arrays admit, the array is allocated and filled
    and the function returns a string with one character for each turn of
    the loop: on turn [i] the value read is a 32-bit value, the index is
    that value modulo the pool length, it lies below the pool length, the
    pool has a character there, and that character is the [i]-th of the
    result.  No lookup falls outside the pool.  For a length above 16384
    the function throws. *)
Theorem generateSecurePassword_indices_in_bounds
    (entropy : nat -> Z) (limit : N) (length : Z) (pool : string) :
  pool <> EmptyString ->
  (0 <= length <= 16384 -> length <= Z.of_N limit ->
   exists (array randomValues : list Z) (password : string),
     Uint32Array limit (Int length) = Return array /\
     getRandomValues entropy array = Return randomValues /\
     generateSecurePassword entropy limit (Int length) pool =
       Return password /\
     String.length password = Z.to_nat length /\
     forall i : nat,
       In i (loop_range (Int length)) ->
       exists value index : Z,
         element randomValues i = Int value /\
         0 <= value < 2 ^ 32 /\
         randomIndex randomValues (Z.of_nat (String.length pool)) i =
           Int index /\
         index = Z.modulo value (Z.of_nat (String.length pool)) /\
         0 <= index < Z.of_nat (String.length pool) /\
         is_Some (char_at pool (Int index)) /\
         String.get i password = char_at pool (Int index)) /\
  (16384 < length ->
   throws (generateSecurePassword entropy limit (Int length) pool)).
Proof.
  intros Hpool. split.
  - intros Hlength Hlimit.
    destruct (generate_chars entropy limit (Z.to_nat length) pool Hpool)
      as (password & Hret & Hlen & Hchars); [lia | lia |].
    rewrite Z2Nat.id in Hret by lia.
    exists (replicate (Z.to_nat length) 0),
      (random_fill entropy (replicate (Z.to_nat length) 0)), password.
    split; [apply Uint32Array_within; lia|].
    split; [apply getRandomValues_within; rewrite length_replicate; lia|].
    split; [exact Hret|]. split; [exact Hlen|].
    intros i Hi. simpl in Hi. apply in_seq in Hi.
    assert (Hlt : (i < Z.to_nat length)%nat) by lia.
    destruct (randomIndex_in_pool entropy (Z.to_nat length) pool i Hpool Hlt)
      as (r & c & Hr & Hrem & Hbound & Hc & _).
    assert (Hv : 0 <= Z.modulo (entropy i) (2 ^ 32) < 2 ^ 32)
      by (apply Z.mod_pos_bound; lia).
    exists (Z.modulo (entropy i) (2 ^ 32)), r.
    split; [apply random_fill_element; now rewrite length_replicate|].
    split; [exact Hv|]. split; [exact Hr|]. split.
    + rewrite Hrem. apply Z.rem_mod_nonneg; lia.
    + split; [exact Hbound|]. split; [now exists c|].
      destruct (Hchars i Hlt) as (_ & Hget). now rewrite Hget, Hr.
  - intros Hlength. destruct (Z_lt_le_dec (Z.of_N limit) length) as [Hlt|Hle].
    + exists RangeError. now apply generate_beyond_limit.
    + exists QuotaExceededError. now apply generate_beyond_quota.
Qed.

Lemma generateSecurePassword_indices_in_bounds_witness :
  exists (array randomValues : list Z) (password : string),
    Uint32Array example_limit (Int 3) = Return array /\
    getRandomValues (fun i => 4294967295 - Z.of_nat i) array =
      Return randomValues /\
    generateSecurePassword (fun i => 4294967295 - Z.of_nat i) example_limit
      (Int 3) CHARACTERS.symbols = Return password /\
    String.length password = Z.to_nat 3 /\
    forall i : nat,
      In i (loop_range (Int 3)) ->
      exists value index : Z,
        element randomValues i = Int value /\
        0 <= value < 2 ^ 32 /\
        randomIndex randomValues
          (Z.of_nat (String.length CHARACTERS.symbols)) i = Int index /\
        index = Z.modulo value (Z.of_nat (String.length CHARACTERS.symbols)) /\
        0 <= index < Z.of_nat (String.length CHARACTERS.symbols) /\
        is_Some (char_at CHARACTERS.symbols (Int index)) /\
        String.get i password = char_at CHARACTERS.symbols (Int index).
Proof.
  apply (generateSecurePassword_indices_in_bounds
           (fun i => 4294967295 - Z.of_nat i) example_limit 3
           CHARACTERS.symbols).
  - discriminate.
  - lia.
  - unfold example_limit. lia.
Defined.

Lemma elem_of_classList_remove_hidden (classList : gset string) :
  CSS_CLASSES.hidden ∈ classList_remove [CSS_CLASSES.hidden] classList <->
  False.
Proof.
  unfold classList_remove.
  rewrite elem_of_difference, elem_of_list_to_set, elem_of_cons. tauto.
Qed.

(** ** Errors *)

Section ErrorFacts.

Variable entropy : nat -> Z.
Variable limit : N.

(** On a non-empty pool the function throws exactly for a negative length
    and for a length above 16384 or above the engine's limit, and what it
    throws then is not the empty-pool error. *)
Lemma generate_nonempty_cases (length : number) (pool : string) :
  pool <> EmptyString ->
  (exists n, length = Int n /\
     (n < 0 \/ 16384 < n \/ Z.of_N limit < n) /\
     (generateSecurePassword entropy limit length pool = Throw RangeError \/
      generateSecurePassword entropy limit length pool =
      Throw QuotaExceededError)) \/
  ((length = NaN \/
    exists n, length = Int n /\ 0 <= n <= 16384 /\ n <= Z.of_N limit) /\
   exists password,
     generateSecurePassword entropy limit length pool = Return password).
Proof.
  intros Hpool. destruct length as [n|].
  - destruct (Z.lt_ge_cases n 0) as [Hn|Hn].
    + left. exists n. split; [reflexivity|]. split; [now left|].
      left. now apply generate_negative.
    + destruct (Z_lt_le_dec (Z.of_N limit) n) as [Hlt|Hle].
      * left. exists n. split; [reflexivity|]. split; [now right; right|].
        left. now apply generate_beyond_limit.
      * destruct (Z_lt_le_dec 16384 n) as [Hq|Hq].
        -- left. exists n. split; [reflexivity|]. split; [now right; left|].
           right. now apply generate_beyond_quota.
        -- right. split; [right; exists n; repeat split; lia|].
           destruct (generate_returns entropy limit (Z.to_nat n) pool Hpool)
             as (chars & Hret & _); [lia | lia |].
           rewrite Z2Nat.id in Hret by lia.
           now exists (string_of_list_ascii chars).
  - right. split; [now left|]. exists EmptyString. now apply generate_NaN.
Qed.

Lemma generate_zero_length (pool : string) :
  pool <> EmptyString ->
  generateSecurePassword entropy limit (Int 0) pool = Return EmptyString.
Proof.
  intros Hpool.
  exact (generate_within entropy limit 0 pool Hpool ltac:(lia) ltac:(lia)).
Qed.

End ErrorFacts.

(** C10. [generateSecurePassword] throws its empty-pool error exactly when
    the pool is empty, whatever the length: also for length 0; and for a
    non-empty pool with length 0 it returns the empty string. *)
Theorem generateSecurePassword_empty_pool_error
    (entropy : nat -> Z) (limit : N) (length : number) (pool : string) :
  (generateSecurePassword entropy limit length pool = Throw empty_pool_error <->
   pool = EmptyString) /\
  generateSecurePassword entropy limit (Int 0) EmptyString =
    Throw empty_pool_error /\
  (pool <> EmptyString ->
   generateSecurePassword entropy limit (Int 0) pool = Return EmptyString).
Proof.
  split; [|split].
  - split.
    + intros Hthrow. destruct pool as [|a pool']; [reflexivity|].
      destruct (generate_nonempty_cases entropy limit length (String a pool'))
        as [(n & _ & _ & [H|H])|(_ & s & H)];
        try discriminate; rewrite H in Hthrow; discriminate.
    + intros ->. apply generate_empty_pool.
  - reflexivity.
  - apply generate_zero_length.
Qed.

Lemma generateSecurePassword_empty_pool_error_witness :
  generateSecurePassword (fun _ => 0) example_limit (Int 0)
    CHARACTERS.lowercase = Return EmptyString.
Proof.
  apply (proj2 (proj2 (generateSecurePassword_empty_pool_error
                         (fun _ => 0) example_limit (Int 0)
                         CHARACTERS.lowercase))).
  discriminate.
Defined.

(** ** The handler *)

Section HandlerFacts.

Variable entropy : nat -> Z.
Variable limit : N.

(** Painting the active boxes touches the evaluation boxes only. *)
Lemma paint_boxes_frame {A : Type} (field : page -> A)
    (paint : page -> box -> box -> gset string) (active : list box) (p : page) :
  (forall v q, field (set_evaluationBoxes v q) = field q) ->
  field (fold_left (fun q b => set_evaluationBoxes (paint q b) q) active p) =
  field p.
Proof.
  intros Hframe. revert p.
  induction active as [|b active IH]; intros p; simpl; [reflexivity|].
  now rewrite IH, Hframe.
Qed.

Lemma updateStrengthEvaluation_frame {A : Type} (field : page -> A)
    (length : number) (p : page) :
  (forall v q, field (set_evaluationBoxes v q) = field q) ->
  (forall v q, field (set_strengthEvaluationText v q) = field q) ->
  field (updateStrengthEvaluation length p) = field p.
Proof.
  intros Hboxes Htext. unfold updateStrengthEvaluation.
  destruct (not_label (getPasswordStrength length)).
  - unfold resetEvaluationBoxes. now rewrite Htext, Hboxes.
  - rewrite (paint_boxes_frame field) by exact Hboxes.
    unfold resetEvaluationBoxes. now rewrite Htext, Hboxes.
Qed.

Lemma generatePassword_reset (p : page) :
  isNaN (lengthInput_value p) = true \/
  js_lt (lengthInput_value p) (Int 0) = true \/
  lengthInput_value p = Int 0 ->
  generatePassword entropy limit p = resetUI p.
Proof.
  unfold generatePassword, CONFIG.PASSWORD_LENGTH.MIN.
  intros [H|[H|H]]; rewrite H; [reflexivity | | reflexivity].
  now rewrite orb_true_r.
Qed.

Lemma generatePassword_positive (p : page) (n : Z) :
  lengthInput_value p = Int n -> 0 < n ->
  generatePassword entropy limit p =
  let q := updateStrengthEvaluation (Int n) p in
  let characterPool := buildCharacterPool (checked p) in
  if String.eqb characterPool EmptyString then
    set_currentPassword EmptyString
      (set_strengthEvaluationText EmptyString
         (resetEvaluationBoxes (showError q)))
  else
    try_catch
      (let* password :=
         generateSecurePassword entropy limit (Int n) characterPool in
       Return (set_generateButton_aria_pressed true
                 (set_passwordNum_textContent password
                    (hideError (set_currentPassword password q)))))
      (fun error => showError q).
Proof.
  intros Hvalue Hn. unfold generatePassword. rewrite Hvalue.
  unfold CONFIG.PASSWORD_LENGTH.MIN. cbn [isNaN js_lt js_strict_eq orb].
  destruct (Z.ltb_spec n 0); [lia|].
  destruct (Z.eqb_spec n 0); [lia|].
  rewrite (updateStrengthEvaluation_frame checked) by reflexivity.
  reflexivity.
Qed.

Lemma generatePassword_no_class (p : page) (n : Z) :
  lengthInput_value p = Int n -> 0 < n ->
  buildCharacterPool (checked p) = EmptyString ->
  (CSS_CLASSES.hidden ∉
     optionError_classList (generatePassword entropy limit p)) /\
  currentPassword (generatePassword entropy limit p) = EmptyString.
Proof.
  intros Hvalue Hn Hpool.
  rewrite (generatePassword_positive p n Hvalue Hn). cbv zeta.
  rewrite Hpool. cbn. unfold classList_remove. split; [|reflexivity].
  rewrite elem_of_difference. intros [_ Hnot]. apply Hnot.
  apply elem_of_list_to_set. constructor.
Qed.

Lemma generatePassword_displays (p : page) (n : Z) :
  lengthInput_value p = Int n -> 0 < n <= 16384 -> n <= Z.of_N limit ->
  buildCharacterPool (checked p) <> EmptyString ->
  exists password : string,
    generateSecurePassword entropy limit (Int n)
      (buildCharacterPool (checked p)) = Return password /\
    currentPassword (generatePassword entropy limit p) = password /\
    passwordNum_textContent (generatePassword entropy limit p) = password /\
    (CSS_CLASSES.hidden ∈
       optionError_classList (generatePassword entropy limit p)).
Proof.
  intros Hvalue Hn Hlimit Hpool.
  rewrite (generatePassword_positive p n Hvalue ltac:(lia)). cbv zeta.
  destruct (String.eqb_spec (buildCharacterPool (checked p)) EmptyString)
    as [E|_]; [congruence|].
  destruct (generate_returns entropy limit (Z.to_nat n) _ Hpool)
    as (chars & Hret & _); [lia | lia |].
  rewrite Z2Nat.id in Hret by lia. rewrite Hret.
  exists (string_of_list_ascii chars). cbn.
  repeat split. unfold classList_add.
  apply elem_of_union_r, elem_of_list_to_set. constructor.
Qed.

(** Above either limit the generator throws and the handler catches: the
    select-option message is shown and nothing is stored. *)
Lemma generatePassword_caught (p : page) (n : Z) :
  lengthInput_value p = Int n -> 0 < n ->
  16384 < n \/ Z.of_N limit < n ->
  buildCharacterPool (checked p) <> EmptyString ->
  generatePassword entropy limit p =
  showError (updateStrengthEvaluation (Int n) p).
Proof.
  intros Hvalue Hn Hbeyond Hpool.
  rewrite (generatePassword_positive p n Hvalue Hn). cbv zeta.
  destruct (String.eqb_spec (buildCharacterPool (checked p)) EmptyString)
    as [E|_]; [congruence|].
  destruct (Z_lt_le_dec (Z.of_N limit) n) as [Hlt|Hle].
  - now rewrite generate_beyond_limit.
  - rewrite generate_beyond_quota; [reflexivity | exact Hpool | lia | exact Hle].
Qed.

End HandlerFacts.

(** ** Degenerate requests *)

(** C3, as stated, fails: with length 0 and the non-empty pool "abc" the
    function does not throw, it returns the empty string. *)
Lemma generate_zero_length_counterexample :
  generateSecurePassword (fun _ => 0) example_limit (Int 0) "abc" =
    Return EmptyString /\
  ~ throws (generateSecurePassword (fun _ => 0) example_limit (Int 0) "abc").
Proof.
  split; [reflexivity|]. intros [e He]. discriminate He.
Qed.

(** C3, amended. With an empty pool [generateSecurePassword] throws its
    empty-pool error for every length L > 0, and for length 0 as well,
    instead of returning a value.  With length 0 and a non-empty pool it
    does not throw: it returns the empty string.  The zero length is dealt
    with by the caller: [generatePassword] resets the page without calling
    the generator. *)
Theorem generate_degenerate_requests
    (entropy : nat -> Z) (limit : N) (L : Z) (P : string) (p : page) :
  (0 < L ->
   generateSecurePassword entropy limit (Int L) EmptyString =
   Throw empty_pool_error) /\
  generateSecurePassword entropy limit (Int 0) EmptyString =
    Throw empty_pool_error /\
  (P <> EmptyString ->
   generateSecurePassword entropy limit (Int 0) P = Return EmptyString) /\
  (lengthInput_value p = Int 0 -> generatePassword entropy limit p = resetUI p).
Proof.
  split; [intros _; apply generate_empty_pool|].
  split; [apply generate_empty_pool|].
  split; [apply generate_zero_length|].
  intros H. apply generatePassword_reset. right. right. exact H.
Qed.

Lemma generate_degenerate_requests_witness :
  generateSecurePassword (fun _ => 0) example_limit (Int 5) EmptyString =
    Throw empty_pool_error /\
  generateSecurePassword (fun _ => 0) example_limit (Int 0)
    CHARACTERS.uppercase = Return EmptyString /\
  generatePassword (fun _ => 0) example_limit blank_page = resetUI blank_page.
Proof.
  pose proof (generate_degenerate_requests
                (fun _ => 0) example_limit 5 CHARACTERS.uppercase blank_page)
    as (Hempty & _ & Hzero & Hreset).
  split; [apply Hempty; lia|].
  split; [apply Hzero; discriminate | apply Hreset; reflexivity].
Defined.

(** ** The failures of generation *)

(** C5, as stated, fails: with length 0 and the empty pool the function
    throws, although the pool is not "empty with a length above 0" and the
    length is neither negative nor non-numeric. *)
Lemma generation_failures_counterexample :
  ~ (throws (generateSecurePassword (fun _ => 0) example_limit (Int 0)
               EmptyString) <->
     EmptyPool (Int 0) EmptyString \/ InvalidLength (Int 0)).
Proof.
  intros [Hthrows _].
  destruct Hthrows as [(_ & n & Hn & Hpos)|[Hnan|(n & Hn & Hneg)]].
  - now exists empty_pool_error.
  - injection Hn as <-. lia.
  - discriminate Hnan.
  - injection Hn as <-. lia.
Qed.

(** C5, amended. [generateSecurePassword] throws in exactly these cases and
    no others: its empty-pool error when the pool is empty, whatever the
    length; a [RangeError] when the pool is not empty and the length is a
    negative integer or above the engine's typed-array limit; a
    [QuotaExceededError] when the pool is not empty and the length is above
    16384 and within the engine's limit.  A [NaN] length with a non-empty
    pool is no error.  All are exceptions handed to the caller.  The caller
    [generatePassword] resets the page for a length that is [NaN], negative
    or 0; for a length above 0 with no class ticked it shows the
    select-option message and clears the current password, without calling
    the generator; for a length from 1 to 16384 within the engine's limit
    with a class ticked the generator returns and the password is stored
    and displayed with the message hidden; for a longer length with a class
    ticked it catches the exception, shows the select-option message and
    leaves the current password as it was. *)
Theorem generation_failures
    (entropy : nat -> Z) (limit : N) (length : number) (pool : string)
    (p : page) :
  (throws (generateSecurePassword entropy limit length pool) <->
   pool = EmptyString \/
   exists n, length = Int n /\ (n < 0 \/ 16384 < n \/ Z.of_N limit < n)) /\
  (pool = EmptyString ->
   generateSecurePassword entropy limit length pool = Throw empty_pool_error) /\
  (pool <> EmptyString ->
   (exists n, length = Int n /\ (n < 0 \/ Z.of_N limit < n)) ->
   generateSecurePassword entropy limit length pool = Throw RangeError) /\
  (pool <> EmptyString ->
   (exists n, length = Int n /\ 16384 < n <= Z.of_N limit) ->
   generateSecurePassword entropy limit length pool =
   Throw QuotaExceededError) /\
  (isNaN (lengthInput_value p) = true \/
   js_lt (lengthInput_value p) (Int 0) = true \/
   lengthInput_value p = Int 0 ->
   generatePassword entropy limit p = resetUI p) /\
  (forall n : Z,
     lengthInput_value p = Int n -> 0 < n ->
     buildCharacterPool (checked p) = EmptyString ->
     (CSS_CLASSES.hidden ∉
        optionError_classList (generatePassword entropy limit p)) /\
     currentPassword (generatePassword entropy limit p) = EmptyString) /\
  (forall n : Z,
     lengthInput_value p = Int n -> 0 < n <= 16384 -> n <= Z.of_N limit ->
     buildCharacterPool (checked p) <> EmptyString ->
     exists password : string,
       generateSecurePassword entropy limit (Int n)
         (buildCharacterPool (checked p)) = Return password /\
       currentPassword (generatePassword entropy limit p) = password /\
       passwordNum_textContent (generatePassword entropy limit p) = password /\
       (CSS_CLASSES.hidden ∈
          optionError_classList (generatePassword entropy limit p))) /\
  (forall n : Z,
     lengthInput_value p = Int n -> 0 < n ->
     16384 < n \/ Z.of_N limit < n ->
     buildCharacterPool (checked p) <> EmptyString ->
     throws (generateSecurePassword entropy limit (Int n)
               (buildCharacterPool (checked p))) /\
     (CSS_CLASSES.hidden ∉
        optionError_classList (generatePassword entropy limit p)) /\
     currentPassword (generatePassword entropy limit p) = currentPassword p).
Proof.
  split; [|split; [|split; [|split; [|split; [|split; [|split]]]]]].
  - split.
    + intros [e He]. destruct pool as [|a pool']; [now left | right].
      destruct (generate_nonempty_cases entropy limit length (String a pool'))
        as [(n & Hn & Hcase & _)|(_ & s & Hs)]; [discriminate | |].
      * now exists n.
      * rewrite Hs in He. discriminate He.
    + intros [->|(n & -> & Hcase)].
      * exists empty_pool_error. apply generate_empty_pool.
      * destruct pool as [|a pool'].
        -- exists empty_pool_error. apply generate_empty_pool.
        -- destruct (generate_nonempty_cases entropy limit (Int n)
                       (String a pool'))
             as [(_ & _ & _ & [H|H])|([Hnan|(n' & Hn' & Hrange & Hlimit)] & _)];
             try discriminate.
           ++ now exists RangeError.
           ++ now exists QuotaExceededError.
           ++ injection Hn' as <-. lia.
  - intros ->. apply generate_empty_pool.
  - intros Hpool (n & -> & [Hneg|Hbeyond]).
    + now apply generate_negative.
    + now apply generate_beyond_limit.
  - intros Hpool (n & -> & Hq & Hl). now apply generate_beyond_quota.
  - apply generatePassword_reset.
  - intros n. apply generatePassword_no_class.
  - intros n. apply generatePassword_displays.
  - intros n Hvalue Hn Hbeyond Hpool. split; [|split].
    + destruct (Z_lt_le_dec (Z.of_N limit) n) as [Hlt|Hle].
      * exists RangeError. now apply generate_beyond_limit.
      * exists QuotaExceededError. apply generate_beyond_quota;
          [exact Hpool | lia | exact Hle].
    + rewrite (generatePassword_caught entropy limit p n Hvalue Hn Hbeyond Hpool).
      cbn [showError optionError_classList set_passwordNum_classList
           set_optionError_classList].
      rewrite elem_of_classList_remove_hidden. tauto.
    + rewrite (generatePassword_caught entropy limit p n Hvalue Hn Hbeyond Hpool).
      exact (updateStrengthEvaluation_frame currentPassword (Int n) p
               (fun _ _ => eq_refl) (fun _ _ => eq_refl)).
Qed.

Lemma generation_failures_witness :
  generateSecurePassword (fun _ => 0) example_limit (Int (-1))
    CHARACTERS.numbers = Throw RangeError /\
  generateSecurePassword (fun _ => 0) example_limit (Int 20000)
    CHARACTERS.numbers = Throw QuotaExceededError /\
  (CSS_CLASSES.hidden ∉
     optionError_classList
       (generatePassword (fun _ => 0) example_limit
          (set_lengthInput_value (Int 3) blank_page))) /\
  currentPassword
    (generatePassword (fun _ => 0) example_limit
       (set_lengthInput_value (Int 3) blank_page)) =
  EmptyString.
Proof.
  pose proof (generation_failures (fun _ => 0) example_limit (Int (-1))
                CHARACTERS.numbers
                (set_lengthInput_value (Int 3) blank_page))
    as (_ & _ & Hrange & _ & _ & Hnone & _).
  pose proof (generation_failures (fun _ => 0) example_limit (Int 20000)
                CHARACTERS.numbers blank_page)
    as (_ & _ & _ & Hquota & _).
  split; [|split].
  - apply Hrange; [discriminate|]. exists (-1). split; [reflexivity | lia].
  - apply Hquota; [discriminate|]. exists 20000. split; [reflexivity|].
    unfold example_limit. lia.
  - apply (Hnone 3); [reflexivity | lia | reflexivity].
Defined.

(** * The rest of the script *)

(** ** Class lists *)

Lemma elem_of_classList_add (c : string) (names : list string)
    (classList : gset string) :
  c ∈ classList_add names classList <-> c ∈ classList \/ c ∈ names.
Proof.
  unfold classList_add. rewrite elem_of_union, elem_of_list_to_set. tauto.
Qed.

Lemma elem_of_classList_remove (c : string) (names : list string)
    (classList : gset string) :
  c ∈ classList_remove names classList <-> c ∈ classList /\ c ∉ names.
Proof.
  unfold classList_remove. rewrite elem_of_difference, elem_of_list_to_set.
  tauto.
Qed.

(** ** The pool and the ticked classes *)

Lemma pool_empty_iff (c : checkboxes) :
  buildCharacterPool c = EmptyString <->
  forall k : CharacterClass, is_checked c k = false.
Proof.
  split.
  - intros H k. destruct c as [[] [] [] []]; try discriminate H.
    destruct k; reflexivity.
  - intros H.
    pose proof (H Uppercase) as H1. pose proof (H Lowercase) as H2.
    pose proof (H Numbers) as H3. pose proof (H Symbols) as H4.
    destruct c; simpl in *; subst; reflexivity.
Qed.

Lemma pool_member_iff (c : checkboxes) (ch : ascii) :
  In ch (list_ascii_of_string (buildCharacterPool c)) <->
  exists k : CharacterClass,
    is_checked c k = true /\ In ch (list_ascii_of_string (alphabet k)).
Proof.
  assert (Happ : forall s t : string,
             list_ascii_of_string (s +:+ t) =
             list_ascii_of_string s ++ list_ascii_of_string t).
  { induction s as [|a s IH]; intros t; simpl; [reflexivity | now rewrite IH]. }
  rewrite buildCharacterPool_concat. unfold class_order.
  assert (Hconcat : forall classes : list CharacterClass,
             In ch (list_ascii_of_string
                      (String.concat EmptyString (map alphabet classes))) <->
             exists k, In k classes /\
                       In ch (list_ascii_of_string (alphabet k))).
  { induction classes as [|k0 [|k1 classes] IH].
    - simpl. split; [intros [] | intros (k & [] & _)].
    - simpl. split.
      + intros H. exists k0. split; [now left | exact H].
      + intros (k & [<-|[]] & H). exact H.
    - change (String.concat EmptyString (map alphabet (k0 :: k1 :: classes)))
        with (alphabet k0 +:+ EmptyString +:+
              String.concat EmptyString (map alphabet (k1 :: classes))).
      rewrite !Happ, !in_app_iff, IH. simpl (In _ (list_ascii_of_string "")).
      split.
      + intros [H|[[]|(k & Hk & H)]].
        * exists k0. split; [now left | exact H].
        * exists k. split; [now right | exact H].
      + intros (k & [<-|Hk] & H); [now left|].
        right. right. exists k. split; assumption. }
  rewrite Hconcat. split.
  - intros (k & Hk & H). apply List.filter_In in Hk as [_ Hk]. now exists k.
  - intros (k & Hk & H). exists k. split; [|exact H].
    apply List.filter_In. split; [|exact Hk].
    destruct k; simpl; tauto.
Qed.

(** X1. A character is in the pool exactly when it belongs to the alphabet
    of a ticked class, and no character occurs twice in a pool, whatever is
    ticked: the four alphabets do not overlap, so every character of the
    pool has one position. *)
Theorem buildCharacterPool_members (c : checkboxes) (ch : ascii) :
  (In ch (list_ascii_of_string (buildCharacterPool c)) <->
   exists k : CharacterClass,
     is_checked c k = true /\ In ch (list_ascii_of_string (alphabet k))) /\
  NoDup (list_ascii_of_string (buildCharacterPool c)).
Proof.
  split; [apply pool_member_iff|].
  destruct c as [[] [] [] []];
    apply (bool_decide_unpack _); vm_compute; reflexivity.
Qed.

Lemma buildCharacterPool_members_witness :
  ~ In "7"%char
      (list_ascii_of_string (buildCharacterPool (ticked [Lowercase; Uppercase]))) /\
  In "q"%char
    (list_ascii_of_string (buildCharacterPool (ticked [Lowercase; Uppercase]))).
Proof.
  split.
  - intros H. apply (buildCharacterPool_members _ "7"%char) in H.
    destruct H as ([] & Hk & H); try discriminate Hk;
      vm_compute in H; intuition discriminate.
  - apply (buildCharacterPool_members _ "q"%char). exists Lowercase.
    split; [reflexivity|]. vm_compute. tauto.
Defined.

(** ** The characters of a generated password *)

Lemma generate_draw_order (entropy : nat -> Z) (limit : N) (L : Z)
    (pool : string) :
  pool <> EmptyString -> 0 <= L <= 16384 -> L <= Z.of_N limit ->
  exists password : string,
    generateSecurePassword entropy limit (Int L) pool = Return password /\
    String.length password = Z.to_nat L /\
    forall i : nat,
      (i < Z.to_nat L)%nat ->
      String.get i password =
      String.get
        (Z.to_nat (Z.modulo (Z.modulo (entropy i) (2 ^ 32))
                            (Z.of_nat (String.length pool))))
        pool.
Proof.
  intros Hpool HL Hlimit.
  assert (Hlen : 0 < Z.of_nat (String.length pool)).
  { destruct pool; [congruence | simpl; lia]. }
  destruct (generate_chars entropy limit (Z.to_nat L) pool Hpool)
    as (password & Hret & Hlength & Hchars); [lia | lia |].
  rewrite Z2Nat.id in Hret by lia.
  exists password. split; [exact Hret|]. split; [exact Hlength|].
  intros i Hi. destruct (Hchars i Hi) as (_ & ->).
  destruct (randomIndex_in_pool entropy (Z.to_nat L) pool i Hpool Hi)
    as (r & c & Hr & Hrem & Hbound & _).
  rewrite Hr. rewrite Z.rem_mod_nonneg in Hrem;
    [|apply Z.mod_pos_bound; lia | lia].
  rewrite <- Hrem. simpl. destruct (Z.ltb_spec r 0); [lia | reflexivity].
Qed.

(** X2. For a non-empty pool and a length L from 0 to 16384 that the
    engine's typed arrays admit, the password is determined by the first L
    values of the random source, in draw order: its [i]-th character is the
    pool character at position [(entropy i mod 2^32) mod pool.length]. *)
Theorem generateSecurePassword_draw_order
    (entropy : nat -> Z) (limit : N) (L : Z) (pool : string) :
  pool <> EmptyString -> 0 <= L <= 16384 -> L <= Z.of_N limit ->
  exists password : string,
    generateSecurePassword entropy limit (Int L) pool = Return password /\
    String.length password = Z.to_nat L /\
    forall i : nat,
      (i < Z.to_nat L)%nat ->
      String.get i password =
      String.get
        (Z.to_nat (Z.modulo (Z.modulo (entropy i) (2 ^ 32))
                            (Z.of_nat (String.length pool))))
        pool.
Proof. apply generate_draw_order. Qed.

Lemma generateSecurePassword_draw_order_witness :
  exists password : string,
    generateSecurePassword (fun i => 4294967296 + 3 * Z.of_nat i)
      example_limit (Int 2) CHARACTERS.uppercase = Return password /\
    String.length password = Z.to_nat 2 /\
    forall i : nat,
      (i < Z.to_nat 2)%nat ->
      String.get i password =
      String.get
        (Z.to_nat (Z.modulo (Z.modulo (4294967296 + 3 * Z.of_nat i) (2 ^ 32))
                            (Z.of_nat (String.length CHARACTERS.uppercase))))
        CHARACTERS.uppercase.
Proof.
  apply (generateSecurePassword_draw_order
           (fun i => 4294967296 + 3 * Z.of_nat i) example_limit 2
           CHARACTERS.uppercase).
  - discriminate.
  - lia.
  - unfold example_limit. lia.
Defined.

(** ** The distribution of the index *)

Lemma index_of_value (value poolLength : Z) :
  0 <= value -> 0 < poolLength ->
  index_of value poolLength = Int (Z.modulo value poolLength).
Proof.
  intros Hv Hm. unfold index_of, randomIndex, element. simpl.
  destruct (Z.eqb_spec poolLength 0); [lia|].
  now rewrite Z.rem_mod_nonneg by lia.
Qed.

(** The 32-bit values that select [index] are [index], [index +
    poolLength], [index + 2 * poolLength], ... below 2^32. *)
Lemma selected_by_count (poolLength index : Z) :
  0 <= index < poolLength ->
  selected_by poolLength index ((2 ^ 32 - 1 - index) / poolLength + 1).
Proof.
  intros Hindex.
  change (2 ^ 32) with 4294967296.
  set (top := (4294967296 - 1 - index) / poolLength).
  assert (Htop : poolLength * top <= 4294967296 - 1 - index)
    by (apply Z.mul_div_le; lia).
  exists (fun k => index + poolLength * k).
  split; [|split].
  - intros k Hk.
    assert (Hrange : 0 <= index + poolLength * k < 4294967296) by nia.
    split; [exact Hrange|].
    rewrite index_of_value by lia. f_equal.
    rewrite (Z.mul_comm poolLength k), Z_mod_plus_full.
    apply Z.mod_small. lia.
  - intros j k _ _ Heq. nia.
  - intros value Hvalue Hsel.
    rewrite index_of_value in Hsel by lia. injection Hsel as Hsel.
    pose proof (Z.div_mod value poolLength ltac:(lia)) as Hdiv.
    rewrite Hsel in Hdiv.
    exists (value / poolLength).
    split; [|lia]. split; [apply Z.div_pos; lia|].
    assert (value / poolLength <= top); [|lia].
    apply Z.div_le_lower_bound; lia.
Qed.

(** C7, as stated, fails in its uniformity: with the 26 uppercase letters
    as the pool, index 0 is selected by 165191050 of the 32-bit values and
    index 25 by 165191049, so the indices are not uniform. *)
Lemma uniform_indices_counterexample :
  ~ uniform_indices (Z.of_nat (String.length CHARACTERS.uppercase)).
Proof.
  change (Z.of_nat (String.length CHARACTERS.uppercase)) with 26.
  intros Huniform.
  pose proof (Huniform 0 25 _ _ ltac:(lia) ltac:(lia)
                (selected_by_count 26 0 ltac:(lia))
                (selected_by_count 26 25 ltac:(lia))) as H.
  vm_compute in H. discriminate H.
Qed.

(** C7, amended. For a non-empty pool and a length from 0 to 16384 that the
    engine admits, [generateSecurePassword] takes [length] values from the
    random source, stores each as a 32-bit value, reduces it modulo the
    pool length and concatenates the selected characters in draw order.
    The indices are not uniform in general: of the 2^32 values a 32-bit
    draw can take, index [d] is selected by
    [(2^32 - 1 - d) / pool.length + 1], which is one more for the low
    indices than for the high ones unless the pool length divides 2^32.
    That the values of the source are independent and unpredictable is a
    property of [crypto.getRandomValues] and is not stated here. *)
Theorem generateSecurePassword_draws
    (entropy : nat -> Z) (limit : N) (L : Z) (pool : string) :
  pool <> EmptyString ->
  (0 <= L <= 16384 -> L <= Z.of_N limit ->
   exists password : string,
     generateSecurePassword entropy limit (Int L) pool = Return password /\
     String.length password = Z.to_nat L /\
     forall i : nat,
       (i < Z.to_nat L)%nat ->
       String.get i password =
       String.get
         (Z.to_nat (Z.modulo (Z.modulo (entropy i) (2 ^ 32))
                             (Z.of_nat (String.length pool))))
         pool) /\
  (forall index : Z,
     0 <= index < Z.of_nat (String.length pool) ->
     selected_by (Z.of_nat (String.length pool)) index
       ((2 ^ 32 - 1 - index) / Z.of_nat (String.length pool) + 1)) /\
  (forall low high : Z,
     0 <= low < 2 ^ 32 mod Z.of_nat (String.length pool) ->
     2 ^ 32 mod Z.of_nat (String.length pool) <= high
       < Z.of_nat (String.length pool) ->
     (2 ^ 32 - 1 - low) / Z.of_nat (String.length pool) + 1 =
     ((2 ^ 32 - 1 - high) / Z.of_nat (String.length pool) + 1) + 1).
Proof.
  intros Hpool.
  assert (Hlen : 0 < Z.of_nat (String.length pool)).
  { destruct pool; [congruence | simpl; lia]. }
  split; [now apply generate_draw_order|].
  split; [intros index Hindex; now apply selected_by_count|].
  intros low high Hlow Hhigh.
  change (2 ^ 32) with 4294967296 in *.
  set (m := Z.of_nat (String.length pool)) in *.
  pose proof (Z.div_mod 4294967296 m ltac:(lia)) as Hdiv.
  pose proof (Z.mod_pos_bound 4294967296 m Hlen) as Hmod.
  set (q := 4294967296 / m) in *. set (r := 4294967296 mod m) in *.
  assert (Hl : (4294967296 - 1 - low) / m = q).
  { symmetry. apply (Z.div_unique_pos _ m q (r - 1 - low)); lia. }
  assert (Hh : (4294967296 - 1 - high) / m = q - 1).
  { symmetry. apply (Z.div_unique_pos _ m (q - 1) (m + r - 1 - high)); lia. }
  lia.
Qed.

Lemma generateSecurePassword_draws_witness :
  selected_by (Z.of_nat (String.length CHARACTERS.numbers)) 5
    ((2 ^ 32 - 1 - 5) / Z.of_nat (String.length CHARACTERS.numbers) + 1) /\
  (2 ^ 32 - 1 - 5) / Z.of_nat (String.length CHARACTERS.numbers) + 1 =
  ((2 ^ 32 - 1 - 6) / Z.of_nat (String.length CHARACTERS.numbers) + 1) + 1.
Proof.
  pose proof (generateSecurePassword_draws (fun _ => 0) example_limit 0
                CHARACTERS.numbers ltac:(discriminate))
    as (_ & Hcount & Hbias).
  split.
  - apply Hcount. vm_compute. split; [discriminate | reflexivity].
  - apply Hbias; vm_compute; split; first [discriminate | reflexivity].
Defined.

(** ** The strength display *)

Lemma getPasswordStrength_range (length : number) :
  getPasswordStrength length = None \/
  getPasswordStrength length = Some STRENGTH_LABELS.TOO_WEAK \/
  getPasswordStrength length = Some STRENGTH_LABELS.WEAK \/
  getPasswordStrength length = Some STRENGTH_LABELS.MEDIUM \/
  getPasswordStrength length = Some STRENGTH_LABELS.STRONG.
Proof.
  destruct length as [n|]; [|now left]. strength_cases; auto 6.
Qed.

(** X3. For a length from 1 to 16 the number of lit boxes is the length
    divided by 4, rounded up: the lit boxes are the first ones of box1 to
    box4, and the label comes with a pair of classes to paint them. *)
Theorem active_boxes_count (n : Z) :
  1 <= n <= 16 ->
  exists label : string,
    getPasswordStrength (Int n) = Some label /\
    getActiveBoxes label =
      take (Z.to_nat ((n + 3) / 4)) [box1; box2; box3; box4] /\
    Datatypes.length (getStrengthClasses label) = 2%nat.
Proof.
  intros Hn.
  assert (Hcases : n = 1 \/ n = 2 \/ n = 3 \/ n = 4 \/ n = 5 \/ n = 6 \/
                   n = 7 \/ n = 8 \/ n = 9 \/ n = 10 \/ n = 11 \/ n = 12 \/
                   n = 13 \/ n = 14 \/ n = 15 \/ n = 16) by lia.
  repeat (destruct Hcases as [->|Hcases]); [..|subst n];
    eexists; (split; [reflexivity|]); split; reflexivity.
Qed.

Lemma active_boxes_count_witness :
  exists label : string,
    getPasswordStrength (Int 9) = Some label /\
    getActiveBoxes label =
      take (Z.to_nat ((9 + 3) / 4)) [box1; box2; box3; box4] /\
    Datatypes.length (getStrengthClasses label) = 2%nat.
Proof. apply (active_boxes_count 9). lia. Defined.

Ltac class_lists :=
  unfold box_empty, box_painted, strength_classes,
    CSS_CLASSES.emptyEvalBox, CSS_CLASSES.fullEvalBoxTooWeak,
    CSS_CLASSES.fullEvalBoxWeak, CSS_CLASSES.fullEvalBoxMedium,
    CSS_CLASSES.fullEvalBoxStrong;
  repeat split; intros c;
  repeat first [rewrite elem_of_classList_add
               |rewrite elem_of_classList_remove];
  cbn [List.app];
  rewrite ?elem_of_cons, ?elem_of_nil;
  intuition (subst; try discriminate; auto).

(** X4. [resetEvaluationBoxes] leaves every box drawn empty, whatever its
    classes were; it touches no class besides the two empty classes and the
    eight strength classes, and a second reset changes nothing. *)
Theorem resetEvaluationBoxes_empties (p : page) (b : box) :
  box_empty (evaluationBoxes (resetEvaluationBoxes p) b) /\
  (forall c : string,
     c ∉ CSS_CLASSES.emptyEvalBox -> c ∉ strength_classes ->
     (c ∈ evaluationBoxes (resetEvaluationBoxes p) b <->
      c ∈ evaluationBoxes p b)) /\
  evaluationBoxes (resetEvaluationBoxes (resetEvaluationBoxes p)) b =
  evaluationBoxes (resetEvaluationBoxes p) b.
Proof.
  split; [|split].
  - cbn [resetEvaluationBoxes set_evaluationBoxes evaluationBoxes].
    class_lists.
  - intros c Hempty Hstrength.
    cbn [resetEvaluationBoxes set_evaluationBoxes evaluationBoxes].
    rewrite elem_of_classList_add, elem_of_classList_remove.
    unfold strength_classes in Hstrength. tauto.
  - cbn [resetEvaluationBoxes set_evaluationBoxes evaluationBoxes].
    apply set_eq. intros c.
    repeat first [rewrite elem_of_classList_add
                 |rewrite elem_of_classList_remove].
    tauto.
Qed.

Lemma resetEvaluationBoxes_empties_witness :
  "rounded"%string ∈
    evaluationBoxes
      (resetEvaluationBoxes
         (set_evaluationBoxes (fun _ => {["rounded"%string; "bg-red-500"%string]})
            blank_page))
      box1.
Proof.
  apply (proj1 (proj2 (resetEvaluationBoxes_empties
                         (set_evaluationBoxes
                            (fun _ => {["rounded"%string; "bg-red-500"%string]})
                            blank_page)
                         box1)) "rounded"%string).
  - apply (bool_decide_unpack _). vm_compute. reflexivity.
  - apply (bool_decide_unpack _). vm_compute. reflexivity.
  - cbn [evaluationBoxes set_evaluationBoxes].
    apply elem_of_union_l. now apply elem_of_singleton.
Defined.

Lemma strength_not_empty_class (c : string) :
  c ∈ strength_classes -> c ∉ CSS_CLASSES.emptyEvalBox.
Proof.
  unfold strength_classes, CSS_CLASSES.emptyEvalBox,
    CSS_CLASSES.fullEvalBoxTooWeak, CSS_CLASSES.fullEvalBoxWeak,
    CSS_CLASSES.fullEvalBoxMedium, CSS_CLASSES.fullEvalBoxStrong.
  cbn [List.app]. rewrite !elem_of_cons, !elem_of_nil.
  intros H [E|[E|[]]]; subst c; intuition discriminate.
Qed.

(** A reset box is drawn empty. *)
Lemma reset_box_empty (classList : gset string) :
  box_empty
    (classList_add CSS_CLASSES.emptyEvalBox
       (classList_remove strength_classes classList)).
Proof.
  split; intros c Hc; rewrite elem_of_classList_add, elem_of_classList_remove.
  - now right.
  - pose proof (strength_not_empty_class c Hc). tauto.
Qed.

(** A reset box painted with strength classes is drawn with them. *)
Lemma painted_after_reset (classes : list string) (classList : gset string) :
  (forall c, c ∈ classes -> c ∈ strength_classes) ->
  box_painted classes
    (classList_add classes
       (classList_remove CSS_CLASSES.emptyEvalBox
          (classList_add CSS_CLASSES.emptyEvalBox
             (classList_remove strength_classes classList)))).
Proof.
  intros Hsub. repeat split; intros c Hc;
    repeat first [rewrite elem_of_classList_add
                 |rewrite elem_of_classList_remove].
  - now right.
  - intros [H|H]; [tauto|].
    apply (strength_not_empty_class c); [now apply Hsub | exact Hc].
  - intros Hnot. pose proof (strength_not_empty_class c Hc). tauto.
Qed.

Ltac strength_sublist :=
  let c := fresh "c" in
  intros c; unfold strength_classes; rewrite !elem_of_app; tauto.

Ltac box_cases Hb :=
  first
    [ exfalso; revert Hb; rewrite ?elem_of_cons, ?elem_of_nil;
      intuition (try discriminate; auto); fail
    | exact (reset_box_empty _)
    | exact (painted_after_reset CSS_CLASSES.fullEvalBoxTooWeak _
               ltac:(strength_sublist))
    | exact (painted_after_reset CSS_CLASSES.fullEvalBoxWeak _
               ltac:(strength_sublist))
    | exact (painted_after_reset CSS_CLASSES.fullEvalBoxMedium _
               ltac:(strength_sublist))
    | exact (painted_after_reset CSS_CLASSES.fullEvalBoxStrong _
               ltac:(strength_sublist)) ].

(** X5. After [updateStrengthEvaluation] the display shows one rating and
    nothing of an earlier one: the text is the label of the length, the
    active boxes of that label carry its classes, no empty class and no
    class of another rating, and every other box is drawn empty.  When the
    length has no label the text is empty and every box is drawn empty.
    This holds whatever classes the boxes carried before. *)
Theorem updateStrengthEvaluation_display (length : number) (p : page) (b : box) :
  match getPasswordStrength length with
  | Some label =>
      strengthEvaluationText (updateStrengthEvaluation length p) = label /\
      (b ∈ getActiveBoxes label ->
       box_painted (getStrengthClasses label)
         (evaluationBoxes (updateStrengthEvaluation length p) b)) /\
      (b ∉ getActiveBoxes label ->
       box_empty (evaluationBoxes (updateStrengthEvaluation length p) b))
  | None =>
      strengthEvaluationText (updateStrengthEvaluation length p) = EmptyString /\
      box_empty (evaluationBoxes (updateStrengthEvaluation length p) b)
  end.
Proof.
  destruct (getPasswordStrength_range length) as [H|[H|[H|[H|H]]]];
    rewrite H; unfold updateStrengthEvaluation; rewrite H;
    cbn -[classList_add classList_remove].
  - split; [reflexivity | exact (reset_box_empty _)].
  - split; [reflexivity|].
    split; intros Hb; destruct b; unfold on_box;
      cbn -[classList_add classList_remove];
      repeat case_decide; try congruence; box_cases Hb.
  - split; [reflexivity|].
    split; intros Hb; destruct b; unfold on_box;
      cbn -[classList_add classList_remove];
      repeat case_decide; try congruence; box_cases Hb.
  - split; [reflexivity|].
    split; intros Hb; destruct b; unfold on_box;
      cbn -[classList_add classList_remove];
      repeat case_decide; try congruence; box_cases Hb.
  - split; [reflexivity|].
    split; intros Hb; destruct b; unfold on_box;
      cbn -[classList_add classList_remove];
      repeat case_decide; try congruence; box_cases Hb.
Qed.

Lemma updateStrengthEvaluation_display_witness :
  box_painted CSS_CLASSES.fullEvalBoxWeak
    (evaluationBoxes (updateStrengthEvaluation (Int 6) blank_page) box2) /\
  box_empty
    (evaluationBoxes (updateStrengthEvaluation (Int 6) blank_page) box3).
Proof.
  split.
  - apply (proj1 (proj2 (updateStrengthEvaluation_display
                           (Int 6) blank_page box2))).
    change (box2 ∈ [box1; box2]). rewrite !elem_of_cons. auto.
  - apply (proj2 (proj2 (updateStrengthEvaluation_display
                           (Int 6) blank_page box3))).
    change (box3 ∉ [box1; box2]).
    rewrite !elem_of_cons, elem_of_nil. intuition discriminate.
Defined.

(** ** Validation *)

Lemma forEach_first_throw {A : Type} (callback : A -> completion unit)
    (keys : list A) :
  (forEach callback keys = Return tt /\
   forall key, key ∈ keys -> callback key = Return tt) \/
  (exists before key after e,
     keys = before ++ key :: after /\
     (forall k, k ∈ before -> callback k = Return tt) /\
     callback key = Throw e /\
     forEach callback keys = Throw e).
Proof.
  induction keys as [|key keys IH]; simpl.
  - left. split; [reflexivity|]. intros key H. inversion H.
  - destruct (callback key) as [[]|e] eqn:Hkey; simpl.
    + destruct IH as [(Hret & Hall)|(before & k & after & e & -> & Hb & Hk & Hthrow)].
      * left. split; [exact Hret|]. intros k Hin.
        apply elem_of_cons in Hin as [->|Hin]; [exact Hkey | now apply Hall].
      * right. exists (key :: before), k, after, e.
        split; [reflexivity|]. split; [|split; assumption].
        intros k' Hin.
        apply elem_of_cons in Hin as [->|Hin]; [exact Hkey | now apply Hb].
    + right. exists [], key, keys, e. split; [reflexivity|].
      split; [|split; [exact Hkey | reflexivity]].
      intros k Hin. inversion Hin.
Qed.

(** X6. [validateDOMElements] returns exactly when the four required
    elements were found; otherwise it throws an error whose message names
    the first missing one in the order passwordNum, lengthInput,
    lengthOutput, generateButton.  No other element is looked at. *)
Theorem validateDOMElements_first_missing (found : string -> bool) :
  (validateDOMElements found = Return tt <->
   forall key, key ∈ requiredElements -> found key = true) /\
  (forall e : exception,
     validateDOMElements found = Throw e ->
     exists before key after,
       requiredElements = before ++ key :: after /\
       (forall k, k ∈ before -> found k = true) /\
       found key = false /\
       e = Error ("Required DOM element not found: " +:+ key)) /\
  (forall found' : string -> bool,
     (forall key, key ∈ requiredElements -> found' key = found key) ->
     validateDOMElements found' = validateDOMElements found).
Proof.
  set (callback := fun (f : string -> bool) (key : string) =>
         if negb (f key)
         then Throw (Error ("Required DOM element not found: " +:+ key))
         else Return tt).
  assert (Hcb : forall f key, callback f key = Return tt <-> f key = true).
  { intros f key. unfold callback. destruct (f key); simpl; split;
      congruence. }
  change (validateDOMElements found)
    with (forEach (callback found) requiredElements).
  split; [|split].
  - destruct (forEach_first_throw (callback found) requiredElements)
      as [(Hret & Hall)|(before & key & after & e & Heq & Hb & Hk & Hthrow)].
    + split; [|intros _; exact Hret].
      intros _ key Hin. apply Hcb. now apply Hall.
    + rewrite Hthrow. split; [discriminate|]. intros Hall. exfalso.
      assert (Hfound : found key = true).
      { apply Hall. rewrite Heq. apply elem_of_app. right.
        apply elem_of_cons. now left. }
      apply Hcb in Hfound. congruence.
  - intros e He.
    destruct (forEach_first_throw (callback found) requiredElements)
      as [(Hret & _)|(before & key & after & e' & Heq & Hb & Hk & Hthrow)];
      [congruence|].
    rewrite Hthrow in He. injection He as <-.
    exists before, key, after. split; [exact Heq|].
    split; [intros k Hin; apply Hcb; now apply Hb|].
    unfold callback in Hk. destruct (found key); simpl in Hk;
      [discriminate|]. split; [reflexivity | congruence].
  - intros found' Hsame.
    change (validateDOMElements found')
      with (forEach (callback found') requiredElements).
    assert (Hext : forall keys : list string,
               (forall key, key ∈ keys -> found' key = found key) ->
               forEach (callback found') keys = forEach (callback found) keys).
    { induction keys as [|key keys IH]; intros Hk; simpl; [reflexivity|].
      unfold callback at 1 3. rewrite (Hk key) by (apply elem_of_cons; now left).
      destruct (found key); simpl; [|reflexivity].
      apply IH. intros k Hin. apply Hk. apply elem_of_cons. now right. }
    now apply Hext.
Qed.

Lemma validateDOMElements_first_missing_witness :
  exists before key after,
    requiredElements = before ++ key :: after /\
    (forall k, k ∈ before ->
       negb (String.eqb k "lengthOutput") &&
       negb (String.eqb k "generateButton") = true) /\
    negb (String.eqb key "lengthOutput") &&
    negb (String.eqb key "generateButton") = false /\
    Error "Required DOM element not found: lengthOutput" =
    Error ("Required DOM element not found: " +:+ key).
Proof.
  apply (proj1 (proj2 (validateDOMElements_first_missing
           (fun key => negb (String.eqb key "lengthOutput") &&
                       negb (String.eqb key "generateButton"))))
           (Error "Required DOM element not found: lengthOutput")).
  reflexivity.
Defined.

(** ** What the handler leaves on the page *)

Lemma shown_remove_hidden (classList : gset string) :
  shown (classList_remove [CSS_CLASSES.hidden] classList).
Proof.
  unfold shown. rewrite elem_of_classList_remove, elem_of_cons. tauto.
Qed.

Lemma not_shown_add_hidden (classList : gset string) :
  ~ shown (classList_add [CSS_CLASSES.hidden] classList).
Proof.
  unfold shown. rewrite elem_of_classList_add, elem_of_cons. tauto.
Qed.

(** The four ways [generatePassword] ends: the page is reset; the
    select-option message is shown because nothing is ticked; a password is
    generated, stored and displayed; the generator throws and the message
    is shown. *)
Lemma generatePassword_ending (entropy : nat -> Z) (limit : N) (p : page) :
  ((isNaN (lengthInput_value p) = true \/
    js_lt (lengthInput_value p) (Int 0) = true \/
    lengthInput_value p = Int 0) /\
   generatePassword entropy limit p = resetUI p) \/
  (exists n : Z,
     lengthInput_value p = Int n /\ 0 < n /\
     (forall k, is_checked (checked p) k = false) /\
     generatePassword entropy limit p =
       set_currentPassword EmptyString
         (set_strengthEvaluationText EmptyString
            (resetEvaluationBoxes
               (showError (updateStrengthEvaluation (Int n) p))))) \/
  (exists (n : Z) (chars : list ascii),
     lengthInput_value p = Int n /\ 0 < n <= 16384 /\ n <= Z.of_N limit /\
     (exists k, is_checked (checked p) k = true) /\
     Datatypes.length chars = Z.to_nat n /\
     Forall (fun c => In c (list_ascii_of_string
                             (buildCharacterPool (checked p)))) chars /\
     generatePassword entropy limit p =
       set_generateButton_aria_pressed true
         (set_passwordNum_textContent (string_of_list_ascii chars)
            (hideError
               (set_currentPassword (string_of_list_ascii chars)
                  (updateStrengthEvaluation (Int n) p))))) \/
  (exists n : Z,
     lengthInput_value p = Int n /\ 0 < n /\
     (16384 < n \/ Z.of_N limit < n) /\
     (exists k, is_checked (checked p) k = true) /\
     generatePassword entropy limit p =
       showError (updateStrengthEvaluation (Int n) p)).
Proof.
  destruct (lengthInput_value p) as [n|] eqn:Hvalue.
  - destruct (Z_lt_le_dec 0 n) as [Hpos|Hle].
    + destruct (String.eqb_spec (buildCharacterPool (checked p)) EmptyString)
        as [Hpool|Hpool].
      * right. left. exists n. split; [reflexivity|]. split; [exact Hpos|].
        split; [now apply pool_empty_iff|].
        rewrite (generatePassword_positive entropy limit p n Hvalue Hpos).
        cbv zeta. now rewrite Hpool.
      * assert (Hticked : exists k, is_checked (checked p) k = true).
        { destruct (checked p) as [[] [] [] []];
            first [ now exists Uppercase | now exists Lowercase
                  | now exists Numbers | now exists Symbols
                  | exfalso; now apply Hpool ]. }
        destruct (Z_lt_le_dec 16384 n) as [Hq|Hq];
          [|destruct (Z_lt_le_dec (Z.of_N limit) n) as [Hl|Hl]].
        -- right. right. right. exists n. split; [reflexivity|].
           split; [exact Hpos|]. split; [now left|]. split; [exact Hticked|].
           apply (generatePassword_caught entropy limit p n Hvalue Hpos);
             [now left | exact Hpool].
        -- right. right. right. exists n. split; [reflexivity|].
           split; [exact Hpos|]. split; [now right|]. split; [exact Hticked|].
           apply (generatePassword_caught entropy limit p n Hvalue Hpos);
             [now right | exact Hpool].
        -- right. right. left.
           destruct (generate_returns entropy limit (Z.to_nat n) _ Hpool)
             as (chars & Hret & Hlen & Hall); [lia | lia |].
           rewrite Z2Nat.id in Hret by lia.
           exists n, chars. split; [reflexivity|]. split; [lia|].
           split; [exact Hl|]. split; [exact Hticked|].
           split; [exact Hlen|]. split; [exact Hall|].
           rewrite (generatePassword_positive entropy limit p n Hvalue Hpos).
           cbv zeta. apply String.eqb_neq in Hpool. rewrite Hpool, Hret.
           reflexivity.
    + left. split; [|apply generatePassword_reset; rewrite Hvalue];
        (destruct (Z.eq_dec n 0) as [->|Hne]; [now right; right|];
         right; left; simpl; apply Z.ltb_lt; lia).
  - left. split; [|apply generatePassword_reset; rewrite Hvalue]; now left.
Qed.

Lemma updateStrengthEvaluation_text (length : number) (p : page) :
  strengthEvaluationText (updateStrengthEvaluation length p) =
  default EmptyString (getPasswordStrength length).
Proof.
  destruct (getPasswordStrength_range length) as [H|[H|[H|[H|H]]]];
    unfold updateStrengthEvaluation; rewrite H; reflexivity.
Qed.

Lemma resetUI_boxes_empty (p : page) (b : box) :
  box_empty (evaluationBoxes (resetUI p) b).
Proof. exact (reset_box_empty _). Qed.

Ltac page_fields :=
  cbn [passwordNum_textContent passwordNum_classList optionError_classList
       copiedText_classList lengthOutput_textContent lengthInput_value
       checked strengthEvaluationText evaluationBoxes
       generateButton_aria_pressed currentPassword
       set_passwordNum_textContent set_passwordNum_classList
       set_optionError_classList set_copiedText_classList
       set_lengthOutput_textContent set_lengthInput_value set_checked
       set_strengthEvaluationText set_evaluationBoxes
       set_generateButton_aria_pressed set_currentPassword
       showError hideError resetEvaluationBoxes updateRangeTrack] in *.

Ltac reset_contradiction Hcond Hvalue :=
  exfalso; rewrite Hvalue in Hcond;
  destruct Hcond as [Hcond|[Hcond|Hcond]];
  [ discriminate Hcond
  | simpl in Hcond; apply Z.ltb_lt in Hcond; lia
  | injection Hcond; lia ].

(** X7. Whatever the page and the slider value, [generatePassword] leaves
    exactly one of the password and the select-option message shown.  The
    message is the one shown exactly when the length is above 0 and either
    no class is ticked or the generator cannot deliver that length (it is
    above 16384 or above the engine's typed-array limit). *)
Theorem generatePassword_shows_one
    (entropy : nat -> Z) (limit : N) (p : page) :
  (shown (optionError_classList (generatePassword entropy limit p)) <->
   exists n : Z,
     lengthInput_value p = Int n /\ 0 < n /\
     ((forall k : CharacterClass, is_checked (checked p) k = false) \/
      16384 < n \/ Z.of_N limit < n)) /\
  (shown (passwordNum_classList (generatePassword entropy limit p)) <->
   ~ shown (optionError_classList (generatePassword entropy limit p))).
Proof.
  destruct (generatePassword_ending entropy limit p)
    as [(Hcond & Heq)
       |[(n & Hvalue & Hpos & Hnone & Heq)
        |[(n & chars & Hvalue & Hpos & Hlimit & (k & Hk) & _ & _ & Heq)
         |(n & Hvalue & Hpos & Hbeyond & _ & Heq)]]];
    rewrite Heq; clear Heq.
  - change (optionError_classList (resetUI p))
      with (classList_add [CSS_CLASSES.hidden] (optionError_classList p)).
    change (passwordNum_classList (resetUI p))
      with (classList_remove [CSS_CLASSES.hidden] (passwordNum_classList p)).
    pose proof (not_shown_add_hidden (optionError_classList p)) as Hoe.
    pose proof (shown_remove_hidden (passwordNum_classList p)) as Hpn.
    split; [|tauto]. split; [tauto|].
    intros (n & Hvalue & Hpos & _). reset_contradiction Hcond Hvalue.
  - set (q := updateStrengthEvaluation (Int n) p). page_fields.
    pose proof (shown_remove_hidden (optionError_classList q)) as Hoe.
    pose proof (not_shown_add_hidden (passwordNum_classList q)) as Hpn.
    split; [|tauto]. split; [|tauto]. intros _.
    exists n. split; [exact Hvalue|]. split; [exact Hpos | now left].
  - set (q := updateStrengthEvaluation (Int n) p). page_fields.
    pose proof (not_shown_add_hidden (optionError_classList q)) as Hoe.
    pose proof (shown_remove_hidden (passwordNum_classList q)) as Hpn.
    split; [|tauto]. split; [tauto|].
    intros (n' & Hvalue' & _ & Hcase). exfalso.
    rewrite Hvalue in Hvalue'. injection Hvalue' as <-.
    destruct Hcase as [Hnone|Hbeyond]; [|lia].
    rewrite Hnone in Hk. discriminate Hk.
  - set (q := updateStrengthEvaluation (Int n) p). page_fields.
    pose proof (shown_remove_hidden (optionError_classList q)) as Hoe.
    pose proof (not_shown_add_hidden (passwordNum_classList q)) as Hpn.
    split; [|tauto]. split; [|tauto]. intros _.
    exists n. split; [exact Hvalue|]. split; [exact Hpos | now right].
Qed.

Lemma generatePassword_shows_one_witness :
  shown (optionError_classList
           (generatePassword (fun _ => 0) example_limit
              (set_lengthInput_value (Int 3) blank_page))).
Proof.
  apply (proj1 (generatePassword_shows_one (fun _ => 0) example_limit
                  (set_lengthInput_value (Int 3) blank_page))).
  exists 3. split; [reflexivity|]. split; [lia|]. left.
  intros []; reflexivity.
Defined.

(** X8. With a length n from 1 to 16384 that the engine's typed arrays
    admit and at least one class ticked, [generatePassword] stores and
    displays one and the same password: it has n characters, each from the
    alphabet of a ticked class; it is shown; the strength text is the label
    of n, or empty when n has none; the button is marked pressed; the
    checkboxes and the slider are left as they were. *)
Theorem generatePassword_success
    (entropy : nat -> Z) (limit : N) (p : page) (n : Z) :
  lengthInput_value p = Int n -> 0 < n <= 16384 -> n <= Z.of_N limit ->
  (exists k : CharacterClass, is_checked (checked p) k = true) ->
  exists password : string,
    currentPassword (generatePassword entropy limit p) = password /\
    passwordNum_textContent (generatePassword entropy limit p) = password /\
    shown (passwordNum_classList (generatePassword entropy limit p)) /\
    String.length password = Z.to_nat n /\
    (forall ch : ascii,
       In ch (list_ascii_of_string password) ->
       exists k : CharacterClass,
         is_checked (checked p) k = true /\
         In ch (list_ascii_of_string (alphabet k))) /\
    strengthEvaluationText (generatePassword entropy limit p) =
      default EmptyString (getPasswordStrength (Int n)) /\
    generateButton_aria_pressed (generatePassword entropy limit p) = true /\
    checked (generatePassword entropy limit p) = checked p /\
    lengthInput_value (generatePassword entropy limit p) = Int n.
Proof.
  intros Hvalue Hpos Hlimit (k & Hk).
  destruct (generatePassword_ending entropy limit p)
    as [(Hcond & _)
       |[(n' & _ & _ & Hnone & _)
        |[(n' & chars & Hvalue' & _ & _ & _ & Hlen & Hall & Heq)
         |(n' & Hvalue' & _ & Hbeyond & _)]]].
  - reset_contradiction Hcond Hvalue.
  - rewrite Hnone in Hk. discriminate Hk.
  - rewrite Heq; clear Heq.
    rewrite Hvalue in Hvalue'. injection Hvalue' as <-.
    exists (string_of_list_ascii chars).
    split; [reflexivity|]. split; [reflexivity|].
    split; [exact (shown_remove_hidden _)|].
    split; [now rewrite length_string_of_list_ascii|].
    split; [|split; [|split; [reflexivity|split]]].
    + intros ch Hch. rewrite list_ascii_of_string_of_list_ascii in Hch.
      rewrite List.Forall_forall in Hall. apply pool_member_iff.
      now apply Hall.
    + exact (updateStrengthEvaluation_text (Int n) p).
    + exact (updateStrengthEvaluation_frame checked (Int n) p
               (fun _ _ => eq_refl) (fun _ _ => eq_refl)).
    + rewrite <- Hvalue at 2.
      exact (updateStrengthEvaluation_frame lengthInput_value (Int n) p
               (fun _ _ => eq_refl) (fun _ _ => eq_refl)).
  - exfalso. rewrite Hvalue in Hvalue'. injection Hvalue' as <-. lia.
Qed.

Lemma generatePassword_success_witness :
  exists password : string,
    currentPassword
      (generatePassword (fun i => Z.of_nat i) example_limit
         (set_checked (ticked [Numbers])
            (set_lengthInput_value (Int 5) blank_page))) = password /\
    String.length password = 5%nat.
Proof.
  destruct (generatePassword_success (fun i => Z.of_nat i) example_limit
              (set_checked (ticked [Numbers])
                 (set_lengthInput_value (Int 5) blank_page)) 5)
    as (password & Hcurrent & _ & _ & Hlen & _).
  - reflexivity.
  - lia.
  - unfold example_limit. lia.
  - exists Numbers. reflexivity.
  - exists password. split; [exact Hcurrent | exact Hlen].
Defined.

(** X9. When the slider value is [NaN], negative or 0, [generatePassword]
    clears the page (no password text, no strength text, every box drawn
    empty, nothing ticked, slider and output at 0, the copied message and
    the select-option message hidden) but leaves the current password as it
    was: the password a copy takes is still the earlier one. *)
Theorem generatePassword_reset_keeps_password
    (entropy : nat -> Z) (limit : N) (p : page) :
  isNaN (lengthInput_value p) = true \/
  js_le (lengthInput_value p) (Int 0) = true ->
  currentPassword (generatePassword entropy limit p) = currentPassword p /\
  passwordNum_textContent (generatePassword entropy limit p) = EmptyString /\
  strengthEvaluationText (generatePassword entropy limit p) = EmptyString /\
  (forall b : box,
     box_empty (evaluationBoxes (generatePassword entropy limit p) b)) /\
  checked (generatePassword entropy limit p) = unchecked /\
  lengthInput_value (generatePassword entropy limit p) = Int 0 /\
  lengthOutput_textContent (generatePassword entropy limit p) = Int 0 /\
  shown (passwordNum_classList (generatePassword entropy limit p)) /\
  ~ shown (optionError_classList (generatePassword entropy limit p)) /\
  ~ shown (copiedText_classList (generatePassword entropy limit p)).
Proof.
  intros Hcond.
  rewrite generatePassword_reset.
  - repeat split; try reflexivity.
    + intros c Hc. now apply (resetUI_boxes_empty p b).
    + intros c Hc. now apply (resetUI_boxes_empty p b).
    + exact (shown_remove_hidden _).
    + exact (not_shown_add_hidden _).
    + exact (not_shown_add_hidden _).
  - destruct Hcond as [H|H]; [now left|].
    destruct (lengthInput_value p) as [n|]; [|discriminate H].
    simpl in H. apply Z.leb_le in H.
    destruct (Z.eq_dec n 0) as [->|Hne]; [now right; right|].
    right. left. simpl. apply Z.ltb_lt. lia.
Qed.

Lemma generatePassword_reset_keeps_password_witness :
  currentPassword
    (generatePassword (fun _ => 0) example_limit
       (set_currentPassword "Tr0ub4dor" blank_page)) = "Tr0ub4dor"%string /\
  passwordNum_textContent
    (generatePassword (fun _ => 0) example_limit
       (set_currentPassword "Tr0ub4dor" blank_page)) = EmptyString.
Proof.
  destruct (generatePassword_reset_keeps_password (fun _ => 0) example_limit
              (set_currentPassword "Tr0ub4dor" blank_page))
    as (Hcurrent & Htext & _).
  - right. reflexivity.
  - split; [exact Hcurrent | exact Htext].
Defined.

(** ** The running page *)

Ltac app_fields :=
  cbn [document copiedTimeoutId timers next_timer clipboard
       on_document set_copiedTimeoutId set_clipboard clearTimeout
       setTimeout copied_timeout] in *.

Lemma display_consistent_copiedText (v : gset string) (p : page) :
  display_consistent p -> display_consistent (set_copiedText_classList v p).
Proof. intros H. exact H. Qed.

Lemma generatePassword_copiedText (entropy : nat -> Z) (limit : N)
    (p : page) :
  shown (copiedText_classList (generatePassword entropy limit p)) ->
  shown (copiedText_classList p).
Proof.
  destruct (generatePassword_ending entropy limit p)
    as [(_ & Heq)
       |[(n & _ & _ & _ & Heq)
        |[(n & chars & _ & _ & _ & _ & _ & _ & Heq)
         |(n & _ & _ & _ & _ & Heq)]]];
    rewrite Heq; clear Heq.
  - intros H. exfalso. revert H. exact (not_shown_add_hidden _).
  - page_fields.
    now rewrite (updateStrengthEvaluation_frame copiedText_classList (Int n) p
                   (fun _ _ => eq_refl) (fun _ _ => eq_refl)).
  - page_fields.
    now rewrite (updateStrengthEvaluation_frame copiedText_classList (Int n) p
                   (fun _ _ => eq_refl) (fun _ _ => eq_refl)).
  - page_fields.
    now rewrite (updateStrengthEvaluation_frame copiedText_classList (Int n) p
                   (fun _ _ => eq_refl) (fun _ _ => eq_refl)).
Qed.

Lemma generatePassword_display (entropy : nat -> Z) (limit : N) (p : page) :
  display_consistent p ->
  display_consistent (generatePassword entropy limit p).
Proof.
  intros ((value & Hin & Hout) & _ & _).
  destruct (generatePassword_ending entropy limit p)
    as [(_ & Heq)
       |[(n & Hvalue & Hpos & _ & Heq)
        |[(n & chars & Hvalue & Hpos & _ & _ & Hlen & _ & Heq)
         |(n & Hvalue & Hpos & _ & _ & Heq)]]];
    rewrite Heq; clear Heq.
  - split; [exists 0; split; reflexivity|]. split.
    + pose proof (shown_remove_hidden (passwordNum_classList p)).
      pose proof (not_shown_add_hidden (optionError_classList p)).
      change (shown (classList_remove [CSS_CLASSES.hidden]
                       (passwordNum_classList p)) <->
              ~ shown (classList_add [CSS_CLASSES.hidden]
                         (optionError_classList p))).
      tauto.
    + intros _ Htext. now contradiction Htext.
  - set (q := updateStrengthEvaluation (Int n) p).
    assert (Hq : lengthInput_value q = lengthInput_value p /\
                 lengthOutput_textContent q = lengthOutput_textContent p).
    { split; apply updateStrengthEvaluation_frame; reflexivity. }
    unfold display_consistent. page_fields.
    pose proof (shown_remove_hidden (optionError_classList q)).
    pose proof (not_shown_add_hidden (passwordNum_classList q)).
    split; [exists value; destruct Hq as [-> ->]; now split|].
    split; [tauto|]. intros Hshown. tauto.
  - set (q := updateStrengthEvaluation (Int n) p).
    assert (Hq : lengthInput_value q = lengthInput_value p /\
                 lengthOutput_textContent q = lengthOutput_textContent p).
    { split; apply updateStrengthEvaluation_frame; reflexivity. }
    assert (Htext : strengthEvaluationText q =
                    default EmptyString (getPasswordStrength (Int n)))
      by apply updateStrengthEvaluation_text.
    unfold display_consistent. page_fields.
    pose proof (not_shown_add_hidden (optionError_classList q)).
    pose proof (shown_remove_hidden (passwordNum_classList q)).
    split; [exists value; destruct Hq as [-> ->]; now split|].
    split; [tauto|]. intros _ _. split; [reflexivity|].
    rewrite length_string_of_list_ascii, Hlen, Z2Nat.id by lia.
    exact Htext.
  - set (q := updateStrengthEvaluation (Int n) p).
    assert (Hq : lengthInput_value q = lengthInput_value p /\
                 lengthOutput_textContent q = lengthOutput_textContent p).
    { split; apply updateStrengthEvaluation_frame; reflexivity. }
    unfold display_consistent. page_fields.
    pose proof (shown_remove_hidden (optionError_classList q)).
    pose proof (not_shown_add_hidden (passwordNum_classList q)).
    split; [exists value; destruct Hq as [-> ->]; now split|].
    split; [tauto|]. intros Hshown. tauto.
Qed.

Lemma showCopiedMessage_consistent (s : app_state) :
  consistent s -> consistent (showCopiedMessage s).
Proof.
  intros ((Hnext & Htimers) & _ & Hdisplay).
  unfold showCopiedMessage.
  destruct (copiedTimeoutId s) as [id|] eqn:Hid.
  - destruct Htimers as (Hrange & Hset).
    assert (Htruthy : timer_truthy (Some id) = true).
    { simpl. destruct id; [lia | reflexivity]. }
    rewrite Htruthy. unfold consistent, timers_consistent. app_fields.
    rewrite Hset.
    split; [split; [lia|split; [lia|]]|split; [intros _; now exists (next_timer s)|exact Hdisplay]].
    apply set_eq. intros x.
    rewrite elem_of_union, elem_of_difference, !elem_of_singleton. tauto.
  - simpl timer_truthy. cbv iota. unfold consistent, timers_consistent.
    app_fields. rewrite Htimers.
    split; [split; [lia|split; [lia|]]|split; [intros _; now exists (next_timer s)|exact Hdisplay]].
    apply set_eq. intros x.
    rewrite elem_of_union, elem_of_empty, !elem_of_singleton. tauto.
Qed.

Lemma set_clipboard_consistent (v : string) (s : app_state) :
  consistent s -> consistent (set_clipboard v s).
Proof. intros H. exact H. Qed.

Lemma handle_consistent (limit : N) (s : app_state) (e : event) :
  consistent s -> consistent (handle limit s e).
Proof.
  intros Hs. pose proof Hs as (Htimers & Hcopied & Hdisplay).
  destruct e as [value|k|entropy|outcome|id]; simpl handle.
  - split; [exact Htimers|]. split; [exact Hcopied|].
    destruct Hdisplay as (_ & Hone & Hpassword).
    split; [exists value; split; reflexivity|]. split; assumption.
  - split; [exact Htimers|]. split; [exact Hcopied|]. exact Hdisplay.
  - split; [exact Htimers|]. split.
    + app_fields. intros H. apply Hcopied.
      now apply (generatePassword_copiedText entropy limit).
    + now apply generatePassword_display.
  - unfold copyPasswordToClipboard.
    destruct (not_string (currentPassword (document s))); [exact Hs|].
    destruct outcome as [|[]|]; try exact Hs;
      apply showCopiedMessage_consistent;
      try apply set_clipboard_consistent; exact Hs.
  - destruct (decide (id ∈ timers s)) as [Hin|_]; [|exact Hs].
    destruct Htimers as (Hnext & Htimers).
    unfold consistent, timers_consistent. app_fields.
    split; [split; [exact Hnext|]|split].
    + destruct (copiedTimeoutId s) as [id'|].
      * destruct Htimers as (_ & Hset). rewrite Hset in Hin |- *.
        apply elem_of_singleton in Hin. subst id'.
        apply set_eq. intros x.
        rewrite elem_of_difference, elem_of_empty, elem_of_singleton. tauto.
      * rewrite Htimers in Hin. now apply elem_of_empty in Hin.
    + intros H. exfalso. revert H. exact (not_shown_add_hidden _).
    + exact Hdisplay.
Qed.

Lemma init_consistent (p : page) : consistent (init_state p).
Proof.
  split; [split; [simpl; lia | reflexivity]|]. split.
  - intros H. exfalso. revert H. exact (not_shown_add_hidden _).
  - split; [exists 0; split; reflexivity|]. split.
    + pose proof (shown_remove_hidden
                    (passwordNum_classList
                       (set_lengthInput_value
                          (Int CONFIG.PASSWORD_LENGTH.DEFAULT) p))) as Hpn.
      pose proof (not_shown_add_hidden
                    (optionError_classList
                       (set_lengthInput_value
                          (Int CONFIG.PASSWORD_LENGTH.DEFAULT) p))) as Hoe.
      split; [intros _; exact Hoe | intros _; exact Hpn].
    + intros _ Htext. now contradiction Htext.
Qed.

Lemma run_consistent (limit : N) (s : app_state) (events : list event) :
  consistent s -> consistent (run limit s events).
Proof.
  revert s. induction events as [|e events IH]; intros s Hs; simpl.
  - exact Hs.
  - apply IH. now apply handle_consistent.
Qed.

(** X10. On the running page, after any sequence of events, at most one
    timeout is pending and it is the one [state.copiedTimeoutId] holds; and
    whenever the copied message is shown, a timeout that will hide it is
    pending. *)
Theorem at_most_one_timeout (limit : N) (p : page) (events : list event) :
  (timers (run limit (init_state p) events) = ∅ /\
   copiedTimeoutId (run limit (init_state p) events) = None \/
   exists id : nat,
     timers (run limit (init_state p) events) = {[id]} /\
     copiedTimeoutId (run limit (init_state p) events) = Some id) /\
  (shown (copiedText_classList (document (run limit (init_state p) events))) ->
   exists id : nat,
     copiedTimeoutId (run limit (init_state p) events) = Some id /\
     id ∈ timers (run limit (init_state p) events)).
Proof.
  destruct (run_consistent limit (init_state p) events (init_consistent p))
    as ((_ & Htimers) & Hcopied & _).
  destruct (copiedTimeoutId (run limit (init_state p) events)) as [id|].
  - destruct Htimers as (_ & Hset). split.
    + right. now exists id.
    + intros _. exists id. split; [reflexivity|]. rewrite Hset.
      now apply elem_of_singleton.
  - split; [now left|]. intros H. destruct (Hcopied H) as [id Hid].
    discriminate Hid.
Qed.

Lemma at_most_one_timeout_witness :
  exists id : nat,
    copiedTimeoutId
      (run example_limit (init_state blank_page)
         [ClickCheckbox Numbers; SlideTo 4; ClickGenerate (fun _ => 0);
          ClickCopy Written; ClickCopy Written]) = Some id /\
    id ∈ timers
           (run example_limit (init_state blank_page)
              [ClickCheckbox Numbers; SlideTo 4; ClickGenerate (fun _ => 0);
               ClickCopy Written; ClickCopy Written]).
Proof.
  apply (proj2 (at_most_one_timeout example_limit blank_page
                  [ClickCheckbox Numbers; SlideTo 4; ClickGenerate (fun _ => 0);
                   ClickCopy Written; ClickCopy Written])).
  apply (bool_decide_unpack _). vm_compute. reflexivity.
Defined.

(** X11. On the running page, after any sequence of events: the output
    beside the slider shows the slider's value; exactly one of the password
    and the select-option message is shown; and a password that is shown is
    the current password (the one a copy takes), with the rating of its own
    length as the strength text. *)
Theorem display_stays_consistent
    (limit : N) (p : page) (events : list event) :
  display_consistent (document (run limit (init_state p) events)).
Proof.
  now destruct (run_consistent limit (init_state p) events (init_consistent p))
    as (_ & _ & Hdisplay).
Qed.

Lemma display_stays_consistent_witness :
  passwordNum_textContent
    (document
       (run example_limit (init_state blank_page)
          [ClickCheckbox Numbers; SlideTo 4; ClickGenerate (fun _ => 0);
           SlideTo 11])) =
  currentPassword
    (document
       (run example_limit (init_state blank_page)
          [ClickCheckbox Numbers; SlideTo 4; ClickGenerate (fun _ => 0);
           SlideTo 11])) /\
  strengthEvaluationText
    (document
       (run example_limit (init_state blank_page)
          [ClickCheckbox Numbers; SlideTo 4; ClickGenerate (fun _ => 0);
           SlideTo 11])) = STRENGTH_LABELS.TOO_WEAK.
Proof.
  destruct (display_stays_consistent example_limit blank_page
              [ClickCheckbox Numbers; SlideTo 4; ClickGenerate (fun _ => 0);
               SlideTo 11]) as (_ & _ & Hpassword).
  destruct Hpassword as (Htext & Hstrength).
  - apply (bool_decide_unpack _). vm_compute. reflexivity.
  - discriminate.
  - split; [exact Htext | exact Hstrength].
Defined.

Lemma showCopiedMessage_fields (s : app_state) :
  clipboard (showCopiedMessage s) = clipboard s /\
  document (showCopiedMessage s) =
  set_copiedText_classList
    (classList_remove [CSS_CLASSES.hidden]
       (copiedText_classList (document s)))
    (document s).
Proof.
  unfold showCopiedMessage. destruct (timer_truthy _); split; reflexivity.
Qed.

(** X12. Clearing the page does not clear what a copy takes.  From any
    state with a current password: the slider is moved to a value of 0 or
    below, generate is clicked and then the copy succeeds; the password text
    on the page is empty, yet the clipboard receives the earlier password
    and the copied message is shown. *)
Theorem copy_after_reset
    (limit : N) (s : app_state) (entropy : nat -> Z) (value : Z) :
  currentPassword (document s) <> EmptyString -> value <= 0 ->
  clipboard (run limit s [SlideTo value; ClickGenerate entropy; ClickCopy Written]) =
    currentPassword (document s) /\
  currentPassword
    (document (run limit s [SlideTo value; ClickGenerate entropy; ClickCopy Written]))
    = currentPassword (document s) /\
  passwordNum_textContent
    (document (run limit s [SlideTo value; ClickGenerate entropy; ClickCopy Written]))
    = EmptyString /\
  shown (copiedText_classList
           (document
              (run limit s [SlideTo value; ClickGenerate entropy; ClickCopy Written]))).
Proof.
  intros Hpassword Hvalue.
  change (run limit s [SlideTo value; ClickGenerate entropy; ClickCopy Written])
    with (handle limit
            (handle limit (handle limit s (SlideTo value))
               (ClickGenerate entropy))
            (ClickCopy Written)).
  set (s1 := handle limit s (SlideTo value)).
  set (s2 := handle limit s1 (ClickGenerate entropy)).
  assert (Hreset : document s2 = resetUI (document s1)).
  { apply (generatePassword_reset entropy limit (document s1)).
    change (lengthInput_value (document s1)) with (Int value).
    destruct (Z.eq_dec value 0) as [->|Hne]; [now right; right|].
    right. left. simpl. apply Z.ltb_lt. lia. }
  assert (Hcurrent : currentPassword (document s2) =
                     currentPassword (document s)).
  { rewrite Hreset. reflexivity. }
  cbn [handle]. unfold copyPasswordToClipboard. rewrite Hcurrent.
  destruct (currentPassword (document s)) as [|c pw] eqn:Hpw; [congruence|].
  cbn [not_string].
  destruct (showCopiedMessage_fields (set_clipboard (String c pw) s2))
    as (-> & ->).
  cbn [clipboard document set_clipboard]. page_fields. rewrite Hreset.
  split; [reflexivity|]. split; [exact Hpw|]. split; [reflexivity|].
  exact (shown_remove_hidden _).
Qed.

Lemma copy_after_reset_witness :
  clipboard
    (run example_limit
       (run example_limit (init_state blank_page)
          [ClickCheckbox Lowercase; SlideTo 6; ClickGenerate (fun _ => 0)])
       [SlideTo 0; ClickGenerate (fun _ => 0); ClickCopy Written]) =
  "aaaaaa"%string.
Proof.
  refine (eq_trans
            (proj1 (copy_after_reset example_limit
                      (run example_limit (init_state blank_page)
                         [ClickCheckbox Lowercase; SlideTo 6;
                          ClickGenerate (fun _ => 0)])
                      (fun _ => 0) 0 _ _)) _).
  - discriminate.
  - lia.
  - reflexivity.
Defined.
